(** * nixnet-python: typed frames, the frame dispatch and session collections

    A shallow embedding of [nixnet/types.py], [nixnet/_session/collection.py]
    and [nixnet/_session/frames.py].  Python integers are unbounded, so they
    are [Z]; [&] and [|] are [Z.land] and [Z.lor] (both are two's complement
    on negative numbers, as in Python).  A [bytes] object is a list of
    [Byte.byte].  Code that may raise returns a [result]; the driver and the
    lazily filled name cache of a collection are threaded explicitly.  The
    embedding follows the Python 3 reading of the code ([bytes(list_of_int)]
    builds a byte string, indexing a [bytes] object gives an [int]). *)

From Stdlib Require Import ZArith List String Bool Lia.
From Stdlib.Strings Require Import Byte.
Import ListNotations.
Local Open Scope Z_scope.

(* ------------------------------------------------------------------ *)
(** ** nixnet/constants.py: the frame type tags *)

Module Constants.

(** Modelled from the spec: [nixnet.constants.FrameType] is not among the
    sources.  Its nine members below are the ones [types.py] names and the
    spec lists as the tags of the dispatch table; [OtherFrameType] stands for
    every other member a raw frame can carry in its [type] field (the spec
    mentions FlexRay and LIN frames), told apart by its wire value [tag]. *)
Inductive FrameType : Type :=
| CAN_DATA
| CAN20_DATA
| CANFD_DATA
| CANFDBRS_DATA
| CAN_REMOTE
| CAN_BUS_ERROR
| SPECIAL_DELAY
| SPECIAL_LOG_TRIGGER
| SPECIAL_START_TRIGGER
| OtherFrameType (tag : Z).

Definition FrameType_eq_dec (a b : FrameType) : {a = b} + {a <> b}.
Proof. decide equality. apply Z.eq_dec. Defined.

Definition FrameType_eqb (a b : FrameType) : bool :=
  if FrameType_eq_dec a b then true else false.

(** [constants.FrameType(x)] on a value that already is a member gives that
    member back. *)
Definition FrameType_call (x : FrameType) : FrameType := x.

(** A member of [constants.CanCommState], known by its [.value]. *)
Record CanCommState : Type := mkCanCommState { CanCommState_value : Z }.

(** A member of [constants.CanLastErr], known by its [.value]. *)
Record CanLastErr : Type := mkCanLastErr { CanLastErr_value : Z }.

(** An instance of the two value tables, for running the embedding on
    examples: communication states [0..3] and last errors [0..6] (the doctest
    of [CanBusErrorFrame.from_raw] shows a member of each for the values [0]
    and [1]). *)
Definition example_CanCommState (v : Z) : bool := (0 <=? v) && (v <=? 3).
Definition example_CanLastErr (v : Z) : bool := (0 <=? v) && (v <=? 6).

End Constants.

Import Constants.

(* ------------------------------------------------------------------ *)
(** ** Exceptions and results *)

Module Py.

(** The status codes handed to [_errors.check_for_error] by the modelled
    code. *)
Inductive status_code : Type :=
| NX_ERR_UNDEFINED_FRAME_ID.

(** The exceptions the modelled code raises, with the arguments the code
    gives them where a property depends on them. *)
Inductive exn : Type :=
| XnetError (code : status_code)
| NotImplementedError (msg : string) (arg : FrameType)
| IndexError
| KeyError (name : string)
| TypeError
| ValueError
| AssertionError.

Inductive result (A : Type) : Type :=
| Ok (a : A)
| Raise (e : exn).
Arguments Ok {A} a.
Arguments Raise {A} e.

Definition bind {A B : Type} (r : result A) (k : A -> result B) : result B :=
  match r with
  | Ok a => k a
  | Raise e => Raise e
  end.

Definition is_raise {A : Type} (r : result A) : bool :=
  match r with
  | Ok _ => false
  | Raise _ => true
  end.

(** Python's [bool(n)] on an integer. *)
Definition truthy (n : Z) : bool := negb (n =? 0).

(** [bytes]: an immutable sequence of integers in [range(256)]. *)
Definition bytes : Type := list byte.

Definition int_of_byte (b : byte) : Z := Z.of_N (Byte.to_N b).

(** [six.indexbytes(buf, i)] for a literal, non-negative [i]: the integer at
    position [i], [IndexError] past the end. *)
Definition indexbytes (buf : bytes) (i : nat) : result Z :=
  match nth_error buf i with
  | Some b => Ok (int_of_byte b)
  | None => Raise IndexError
  end.

(** One element of [bytes(iterable_of_ints)]: [ValueError] outside
    [range(256)]. *)
Definition byte_of_int (n : Z) : result byte :=
  if (n <? 0) || (255 <? n) then Raise ValueError
  else match Byte.of_N (Z.to_N n) with
       | Some b => Ok b
       | None => Raise ValueError
       end.

(** Being in [range(256)]. *)
Definition is_byte_value (n : Z) : Prop := 0 <= n <= 255.

(** [bytes(ints)] for a list of integers. *)
Fixpoint bytes_of_ints (ints : list Z) : result bytes :=
  match ints with
  | [] => Ok []
  | n :: rest =>
      bind (byte_of_int n) (fun b =>
      bind (bytes_of_ints rest) (fun bs => Ok (b :: bs)))
  end.

(** [seq[i]] for a Python list and an integer [i]: a negative index counts
    from the end, and anything outside [-len, len) raises [IndexError]. *)
Definition list_getitem {A : Type} (seq : list A) (i : Z) : result A :=
  let n := Z.of_nat (List.length seq) in
  let j := if i <? 0 then i + n else i in
  if (j <? 0) || (n <=? j) then Raise IndexError
  else match nth_error seq (Z.to_nat j) with
       | Some x => Ok x
       | None => Raise IndexError
       end.

(** [seq.index(x)]: the position of the first element equal to [x],
    [ValueError] when there is none. *)
Fixpoint list_index (seq : list string) (x : string) : result Z :=
  match seq with
  | [] => Raise ValueError
  | y :: rest =>
      if String.eqb y x then Ok 0
      else bind (list_index rest x) (fun i => Ok (i + 1))
  end.

(** [x in seq] for a list of strings. *)
Definition list_contains (seq : list string) (x : string) : bool :=
  existsb (String.eqb x) seq.

End Py.

Import Py.

Declare Scope py_scope.
Delimit Scope py_scope with py.
Notation "x <- c ;; k" := (bind c (fun x => k))
  (at level 61, c at next level, right associativity) : py_scope.
Notation "c ;;; k" := (bind c (fun _ => k))
  (at level 61, right associativity) : py_scope.
Local Open Scope py_scope.

(* ------------------------------------------------------------------ *)
(** ** nixnet/types.py *)

Module Types.

(** [_cconsts.NX_FRAME_ID_CAN_IS_EXTENDED]: bit 29 of the raw identifier.
    The doctests of [CanIdentifier] fix the value
    ([int(CanIdentifier(1, True))] is [0x20000001]). *)
Definition NX_FRAME_ID_CAN_IS_EXTENDED : Z := 0x20000000.

(** [_cconsts.NX_FRAME_FLAGS_TRANSMIT_ECHO]; the doctest of
    [CanFrame.to_raw] fixes the value (an echoed frame has [flags=0x80]). *)
Definition NX_FRAME_FLAGS_TRANSMIT_ECHO : Z := 0x80.

(** Modelled from the spec: [nixnet._errors.check_for_error] is not among
    the sources.  The spec says that converting an identifier that does not
    fit its mask fails with the undefined-frame-identifier error, so the call
    on that status code raises. *)
Definition check_for_error (code : status_code) : result unit :=
  Raise (XnetError code).

(** *** CanIdentifier *)

Record CanIdentifier : Type := mkCanIdentifier {
  identifier : Z;
  extended : bool
}.

Definition _FRAME_ID_MASK : Z := 0x000003FF.
Definition _EXTENDED_FRAME_ID_MASK : Z := 0x1FFFFFFF.

(** The mask that goes with an [extended] flag. *)
Definition id_mask (ext : bool) : Z :=
  if ext then _EXTENDED_FRAME_ID_MASK else _FRAME_ID_MASK.

(** [CanIdentifier.from_raw]. *)
Definition CanIdentifier_from_raw (raw : Z) : CanIdentifier :=
  let ext := truthy (Z.land raw NX_FRAME_ID_CAN_IS_EXTENDED) in
  if ext then mkCanIdentifier (Z.land raw _EXTENDED_FRAME_ID_MASK) ext
  else mkCanIdentifier (Z.land raw _FRAME_ID_MASK) ext.

(** [CanIdentifier.__int__]. *)
Definition CanIdentifier_int (self : CanIdentifier) : result Z :=
  let id := identifier self in
  if extended self then
    (if negb (id =? Z.land id _EXTENDED_FRAME_ID_MASK)
     then check_for_error NX_ERR_UNDEFINED_FRAME_ID else Ok tt) ;;;
    Ok (Z.lor id NX_FRAME_ID_CAN_IS_EXTENDED)
  else
    (if negb (id =? Z.land id _FRAME_ID_MASK)
     then check_for_error NX_ERR_UNDEFINED_FRAME_ID else Ok tt) ;;;
    Ok id.

(** [CanIdentifier.__eq__] between two identifiers. *)
Definition CanIdentifier_eq (a b : CanIdentifier) : bool :=
  (identifier a =? identifier b) && Bool.eqb (extended a) (extended b).

(** *** RawFrame *)

Record RawFrame : Type := mkRawFrame {
  raw_timestamp : Z;
  raw_identifier : Z;
  raw_type : FrameType;
  raw_flags : Z;
  raw_info : Z;
  raw_payload : bytes
}.

(** *** CanFrame *)

Record CanFrame : Type := mkCanFrame {
  can_identifier : CanIdentifier;
  can_echo : bool;
  can_type : FrameType;
  can_timestamp : Z;
  can_payload : bytes
}.

(** The first argument of [CanFrame(...)]: an [int] or a [CanIdentifier]. *)
Inductive identifier_arg : Type :=
| IdInt (n : Z)
| IdObj (c : CanIdentifier).

(** [CanFrame.__init__(identifier, type=FrameType.CAN_DATA, payload=b"")];
    an omitted optional argument is [None].  [CanIdentifier(n)] leaves
    [extended] at its default [False]. *)
Definition CanFrame_init (ident : identifier_arg) (type : option FrameType)
    (payload : option bytes) : CanFrame :=
  {| can_identifier :=
       match ident with
       | IdInt n => mkCanIdentifier n false
       | IdObj c => c
       end;
     can_echo := false;
     can_type := match type with Some t => t | None => CAN_DATA end;
     can_timestamp := 0;
     can_payload := match payload with Some p => p | None => [] end |}.

(** [CanFrame.from_raw]: construct, then assign [timestamp] and [echo]. *)
Definition CanFrame_from_raw (frame : RawFrame) : CanFrame :=
  let ident := CanIdentifier_from_raw (raw_identifier frame) in
  let can_frame :=
    CanFrame_init (IdObj ident) (Some (FrameType_call (raw_type frame)))
                  (Some (raw_payload frame)) in
  let can_frame :=
    {| can_identifier := can_identifier can_frame;
       can_echo := can_echo can_frame;
       can_type := can_type can_frame;
       can_timestamp := raw_timestamp frame;
       can_payload := can_payload can_frame |} in
  {| can_identifier := can_identifier can_frame;
     can_echo := truthy (Z.land (raw_flags frame) NX_FRAME_FLAGS_TRANSMIT_ECHO);
     can_type := can_type can_frame;
     can_timestamp := can_timestamp can_frame;
     can_payload := can_payload can_frame |}.

(** [CanFrame.to_raw]. *)
Definition CanFrame_to_raw (self : CanFrame) : result RawFrame :=
  ident <- CanIdentifier_int (can_identifier self) ;;
  let flags := 0 in
  let flags :=
    if can_echo self then Z.lor flags NX_FRAME_FLAGS_TRANSMIT_ECHO else flags in
  Ok (mkRawFrame (can_timestamp self) ident (can_type self) flags 0
                 (can_payload self)).

(** *** CanBusErrorFrame *)

Record CanBusErrorFrame : Type := mkCanBusErrorFrame {
  timestamp : Z;
  state : CanCommState;
  tcvr_err : bool;
  bus_err : CanLastErr;
  tx_err_count : Z;
  rx_err_count : Z
}.

Section Enums.

(** The value tables of [constants.CanCommState] and [constants.CanLastErr]
    are not among the sources: which integers are values of a member is a
    parameter of the embedding. *)
Variable is_CanCommState : Z -> bool.
Variable is_CanLastErr : Z -> bool.

(** [constants.CanCommState(v)]: the member with value [v], [ValueError]
    when there is none. *)
Definition CanCommState_call (v : Z) : result CanCommState :=
  if is_CanCommState v then Ok (mkCanCommState v) else Raise ValueError.

(** [constants.CanLastErr(v)]. *)
Definition CanLastErr_call (v : Z) : result CanLastErr :=
  if is_CanLastErr v then Ok (mkCanLastErr v) else Raise ValueError.

(** [CanBusErrorFrame.from_raw]. *)
Definition CanBusErrorFrame_from_raw (frame : RawFrame)
    : result CanBusErrorFrame :=
  let timestamp := raw_timestamp frame in
  b0 <- indexbytes (raw_payload frame) 0 ;;
  state <- CanCommState_call b0 ;;
  b1 <- indexbytes (raw_payload frame) 1 ;;
  let tcvr_err := negb (b1 =? 0) in
  b1' <- indexbytes (raw_payload frame) 1 ;;
  bus_err <- CanLastErr_call b1' ;;
  tx_err_count <- indexbytes (raw_payload frame) 3 ;;
  rx_err_count <- indexbytes (raw_payload frame) 4 ;;
  Ok (mkCanBusErrorFrame timestamp state tcvr_err bus_err
                         tx_err_count rx_err_count).

(** [CanBusErrorFrame.to_raw]; [self.type] is [FrameType.CAN_BUS_ERROR]. *)
Definition CanBusErrorFrame_to_raw (self : CanBusErrorFrame)
    : result RawFrame :=
  let identifier := 0 in
  let flags := 0 in
  let info := 0 in
  let payload_data :=
    [ CanCommState_value (state self);
      if tcvr_err self then 1 else 0;
      CanLastErr_value (bus_err self);
      tx_err_count self;
      rx_err_count self ] in
  payload <- bytes_of_ints payload_data ;;
  Ok (mkRawFrame (timestamp self) identifier CAN_BUS_ERROR flags info payload).

(** *** DelayFrame, LogTriggerFrame, StartTriggerFrame *)

Record DelayFrame : Type := mkDelayFrame { offset : Z }.
Record LogTriggerFrame : Type := mkLogTriggerFrame { log_timestamp : Z }.
Record StartTriggerFrame : Type :=
  mkStartTriggerFrame { start_timestamp : Z }.

Definition DelayFrame_from_raw (frame : RawFrame) : DelayFrame :=
  mkDelayFrame (raw_timestamp frame).

Definition LogTriggerFrame_from_raw (frame : RawFrame) : LogTriggerFrame :=
  mkLogTriggerFrame (raw_timestamp frame).

Definition StartTriggerFrame_from_raw (frame : RawFrame)
    : StartTriggerFrame :=
  mkStartTriggerFrame (raw_timestamp frame).

(** *** XnetFrame: the dispatch on the frame type *)

(** The classes the dispatch table holds. *)
Inductive FrameClass : Type :=
| CanFrame_cls
| CanBusErrorFrame_cls
| DelayFrame_cls
| LogTriggerFrame_cls
| StartTriggerFrame_cls.

(** What the [from_raw] of those classes returns. *)
Inductive Frame : Type :=
| Frame_Can (f : CanFrame)
| Frame_CanBusError (f : CanBusErrorFrame)
| Frame_Delay (f : DelayFrame)
| Frame_LogTrigger (f : LogTriggerFrame)
| Frame_StartTrigger (f : StartTriggerFrame).

(** The dict literal of [XnetFrame.from_raw], in source order. *)
Definition frame_type_table : list (FrameType * FrameClass) :=
  [ (CAN_DATA, CanFrame_cls);
    (CAN20_DATA, CanFrame_cls);
    (CANFD_DATA, CanFrame_cls);
    (CANFDBRS_DATA, CanFrame_cls);
    (CAN_REMOTE, CanFrame_cls);
    (CAN_BUS_ERROR, CanBusErrorFrame_cls);
    (SPECIAL_DELAY, DelayFrame_cls);
    (SPECIAL_LOG_TRIGGER, LogTriggerFrame_cls);
    (SPECIAL_START_TRIGGER, StartTriggerFrame_cls) ].

(** The nine tags the table lists. *)
Definition dispatch_tags : list FrameType :=
  [ CAN_DATA; CAN20_DATA; CANFD_DATA; CANFDBRS_DATA; CAN_REMOTE;
    CAN_BUS_ERROR; SPECIAL_DELAY; SPECIAL_LOG_TRIGGER;
    SPECIAL_START_TRIGGER ].

(** [d.get(key)] on a dict whose keys are distinct: [None] on a miss. *)
Fixpoint dict_get (d : list (FrameType * FrameClass)) (key : FrameType)
    : option FrameClass :=
  match d with
  | [] => None
  | (k, v) :: rest => if FrameType_eqb k key then Some v else dict_get rest key
  end.

(** [cls.from_raw(frame)] for a class of the table. *)
Definition class_from_raw (cls : FrameClass) (frame : RawFrame)
    : result Frame :=
  match cls with
  | CanFrame_cls => Ok (Frame_Can (CanFrame_from_raw frame))
  | CanBusErrorFrame_cls =>
      f <- CanBusErrorFrame_from_raw frame ;; Ok (Frame_CanBusError f)
  | DelayFrame_cls => Ok (Frame_Delay (DelayFrame_from_raw frame))
  | LogTriggerFrame_cls =>
      Ok (Frame_LogTrigger (LogTriggerFrame_from_raw frame))
  | StartTriggerFrame_cls =>
      Ok (Frame_StartTrigger (StartTriggerFrame_from_raw frame))
  end.

(** [XnetFrame.from_raw]. *)
Definition XnetFrame_from_raw (frame : RawFrame) : result Frame :=
  match dict_get frame_type_table (raw_type frame) with
  | None => Raise (NotImplementedError "Unsupported frame type" (raw_type frame))
  | Some frame_type => class_from_raw frame_type frame
  end.

End Enums.

(** *** The other direction of the special frames, and [frame.to_raw()] *)

(** [DelayFrame.to_raw]; [self.type] is [FrameType.SPECIAL_DELAY]. *)
Definition DelayFrame_to_raw (self : DelayFrame) : RawFrame :=
  let identifier := 0 in
  let flags := 0 in
  let info := 0 in
  let payload := [] in
  mkRawFrame (offset self) identifier SPECIAL_DELAY flags info payload.

(** [LogTriggerFrame.to_raw]; [self.type] is
    [FrameType.SPECIAL_LOG_TRIGGER]. *)
Definition LogTriggerFrame_to_raw (self : LogTriggerFrame) : RawFrame :=
  let identifier := 0 in
  let flags := 0 in
  let info := 0 in
  let payload := [] in
  mkRawFrame (log_timestamp self) identifier SPECIAL_LOG_TRIGGER flags info
             payload.

(** [StartTriggerFrame.to_raw]; [self.type] is
    [FrameType.SPECIAL_START_TRIGGER]. *)
Definition StartTriggerFrame_to_raw (self : StartTriggerFrame) : RawFrame :=
  let identifier := 0 in
  let flags := 0 in
  let info := 0 in
  let payload := [] in
  mkRawFrame (start_timestamp self) identifier SPECIAL_START_TRIGGER flags
             info payload.

(** [frame.to_raw()] on a frame of any of the five classes: the method of
    the frame's own class. *)
Definition Frame_to_raw (frame : Frame) : result RawFrame :=
  match frame with
  | Frame_Can f => CanFrame_to_raw f
  | Frame_CanBusError f => CanBusErrorFrame_to_raw f
  | Frame_Delay f => Ok (DelayFrame_to_raw f)
  | Frame_LogTrigger f => Ok (LogTriggerFrame_to_raw f)
  | Frame_StartTrigger f => Ok (StartTriggerFrame_to_raw f)
  end.

(** [frame.type]: a [CanFrame] stores it, the other classes fix it. *)
Definition Frame_type (frame : Frame) : FrameType :=
  match frame with
  | Frame_Can f => can_type f
  | Frame_CanBusError _ => CAN_BUS_ERROR
  | Frame_Delay _ => SPECIAL_DELAY
  | Frame_LogTrigger _ => SPECIAL_LOG_TRIGGER
  | Frame_StartTrigger _ => SPECIAL_START_TRIGGER
  end.

(** The five tags the dispatch table sends to [CanFrame]. *)
Definition can_tags : list FrameType :=
  [ CAN_DATA; CAN20_DATA; CANFD_DATA; CANFDBRS_DATA; CAN_REMOTE ].

End Types.

Import Types.

(* ------------------------------------------------------------------ *)
(** ** nixnet/_session/collection.py *)

Module Collection.

(** [Item]: a handle, an index and a name. *)
Record Item : Type := mkItem {
  item_handle : Z;
  item_index : Z;
  item_name : string
}.

(** [Item.__eq__] between two items of one class: the name takes no part. *)
Definition Item_eq (self other : Item) : bool :=
  (item_handle self =? item_handle other)
  && (item_index self =? item_index other).

(** [Item.__ne__]. *)
Definition Item_ne (self other : Item) : bool := negb (Item_eq self other).

(** [Item.__int__] and [Item.__str__]. *)
Definition Item_int (self : Item) : Z := item_index self.
Definition Item_str (self : Item) : string := item_name self.

(** [Collection]: the handle and the private [__list_cache], [None] until the
    first read of the [_list_cache] property. *)
Record Collection : Type := mkCollection {
  _handle : Z;
  __list_cache : option (list string)
}.

(** [Collection.__init__]. *)
Definition Collection_init (handle : Z) : Collection :=
  mkCollection handle None.

(** A key of [__contains__], [__getitem__] and [get]: an integer, a string,
    or an object of any other type. *)
Inductive key : Type :=
| KeyInt (i : Z)
| KeyStr (s : string)
| KeyOther.

(** What one [next()] on a generator gives. *)
Inductive step (A : Type) : Type :=
| Yield (a : A)
| StopIteration
| Raised (e : exn).
Arguments Yield {A} a.
Arguments StopIteration {A}.
Arguments Raised {A} e.

(** The generator object [Collection.__iter__] returns: not started yet,
    suspended at the [yield] with the list it enumerates and the next
    position, or finished (by running off the end or by an exception). *)
Inductive generator : Type :=
| GenCreated
| GenSuspended (item_names : list string) (index : nat)
| GenFinished.

Section Driver.

(** The two driver queries of [nixnet._props], as the driver answers them
    for a handle. *)
Variable get_session_num_in_list : Z -> Z.
Variable get_session_list : Z -> list string.

(** The [_list_cache] property: fills the cache on the first read. *)
Definition _list_cache (self : Collection) : list string * Collection :=
  match __list_cache self with
  | None =>
      let names := get_session_list (_handle self) in
      (names, mkCollection (_handle self) (Some names))
  | Some names => (names, self)
  end.

(** [Collection.__len__]: asks the driver on every call. *)
Definition Collection_len (self : Collection) : Z :=
  get_session_num_in_list (_handle self).

(** [Frames._create_item]: the leaf class builds a [Frame], an [Item] with
    no fields of its own. *)
Definition _create_item (handle index : Z) (name : string) : Item :=
  mkItem handle index name.

(** The [for index, name in enumerate(item_names)] loop of [__iter__], from
    position [index] on. *)
Definition iter_loop (self : Collection) (item_names : list string)
    (index : nat) : step Item * generator :=
  match nth_error item_names index with
  | Some name =>
      (Yield (_create_item (_handle self) (Z.of_nat index) name),
       GenSuspended item_names (S index))
  | None => (StopIteration, GenFinished)
  end.

(** One [next()] on the generator of [Collection.__iter__].  Nothing of the
    body runs before the first [next()]; it then reads the length, reads the
    cache, and checks the [assert]. *)
Definition Collection_iter_next (self : Collection) (g : generator)
    : step Item * generator * Collection :=
  match g with
  | GenCreated =>
      let item_count := Collection_len self in
      let '(item_names, self) := _list_cache self in
      if item_count =? Z.of_nat (List.length item_names)
      then (iter_loop self item_names 0, self)
      else (Raised AssertionError, GenFinished, self)
  | GenSuspended item_names index => (iter_loop self item_names index, self)
  | GenFinished => (StopIteration, GenFinished, self)
  end.

(** [list(iter(self))] cut off after [fuel] calls of [next()]: the items
    yielded so far, and how the iteration ended ([None] when the fuel ran
    out first). *)
Fixpoint drain (fuel : nat) (self : Collection) (g : generator)
    : list Item * option (step unit) * Collection :=
  match fuel with
  | O => ([], None, self)
  | S fuel' =>
      match Collection_iter_next self g with
      | (Yield it, g', self') =>
          let '(items, fin, self'') := drain fuel' self' g' in
          (it :: items, fin, self'')
      | (StopIteration, _, self') => ([], Some StopIteration, self')
      | (Raised e, _, self') => ([], Some (Raised e), self')
      end
  end.

(** The items of [enumerate(item_names)] from position [index] on, as
    [__iter__] yields them when it runs to the end. *)
Fixpoint items_from (handle : Z) (index : nat) (item_names : list string)
    : list Item :=
  match item_names with
  | [] => []
  | name :: rest =>
      _create_item handle (Z.of_nat index) name
      :: items_from handle (S index) rest
  end.

(** [Collection.__contains__]; [and] does not read the cache when its left
    operand is false. *)
Definition Collection_contains (self : Collection) (index : key)
    : result bool * Collection :=
  match index with
  | KeyInt i =>
      if 0 <=? i then
        let '(names, self) := _list_cache self in
        (Ok (i <? Z.of_nat (List.length names)), self)
      else (Ok false, self)
  | KeyStr name =>
      let '(names, self) := _list_cache self in
      (Ok (list_contains names name), self)
  | KeyOther => (Raise TypeError, self)
  end.

(** [Collection.__getitem__]. *)
Definition Collection_getitem (self : Collection) (index : key)
    : result Item * Collection :=
  match index with
  | KeyInt i =>
      let '(names, self) := _list_cache self in
      match list_getitem names i with
      | Ok name => (Ok (_create_item (_handle self) i name), self)
      | Raise e => (Raise e, self)
      end
  | KeyStr name =>
      let '(item_names, self) := _list_cache self in
      match list_index item_names name with
      | Ok i => (Ok (_create_item (_handle self) i name), self)
      | Raise ValueError => (Raise (KeyError name), self)
      | Raise e => (Raise e, self)
      end
  | KeyOther => (Raise TypeError, self)
  end.

(** [Collection.get]: the item, or [default] (of any type [D]) on a miss. *)
Definition Collection_get {D : Type} (self : Collection) (index : key)
    (default : D) : result (Item + D) * Collection :=
  match index with
  | KeyInt i =>
      let '(names, self) := _list_cache self in
      match list_getitem names i with
      | Ok name => (Ok (inl (_create_item (_handle self) i name)), self)
      | Raise IndexError => (Ok (inr default), self)
      | Raise e => (Raise e, self)
      end
  | KeyStr name =>
      let '(item_names, self) := _list_cache self in
      match list_index item_names name with
      | Ok i => (Ok (inl (_create_item (_handle self) i name)), self)
      | Raise ValueError => (Ok (inr default), self)
      | Raise e => (Raise e, self)
      end
  | KeyOther => (Raise TypeError, self)
  end.

(** [==] on two lists of strings. *)
Definition names_eqb (a b : list string) : bool :=
  if list_eq_dec string_dec a b then true else false.

(** [Collection.__eq__] against another collection of the same class (two
    distinct objects): [and] reads the caches only when the handles agree,
    the one of [self] first. *)
Definition Collection_eq (self other : Collection)
    : bool * Collection * Collection :=
  if _handle self =? _handle other then
    let '(names, self) := _list_cache self in
    let '(other_names, other) := _list_cache other in
    (names_eqb names other_names, self, other)
  else (false, self, other).

(** [Collection.__ne__]. *)
Definition Collection_ne (self other : Collection)
    : bool * Collection * Collection :=
  let '(equal, self, other) := Collection_eq self other in
  (negb equal, self, other).

End Driver.

End Collection.

(* ------------------------------------------------------------------ *)
(** ** nixnet/_session/frames.py: OutFrames *)

Module Frames.

Import Collection.

Section OutFrames.

(** The type of the [timeout] argument, which the code only passes on. *)
Variable timeout_t : Type.

(** [_frames.serialize_frame] is not among the sources.  [write_raw] chains
    what it returns and joins the result, so it gives the units of one frame,
    each a byte string; it may raise instead. *)
Variable serialize_frame : RawFrame -> result (list bytes).

(** One call of [_funcs.nx_write_frame] as the driver sees it. *)
Record write_call : Type := mkWriteCall {
  w_handle : Z;
  w_bytes : bytes;
  w_timeout : timeout_t
}.

(** The driver: the calls of [nx_write_frame] so far, oldest first.  What
    the driver does with a call (queueing, a timeout error) is outside the
    embedding. *)
Definition driver : Type := list write_call.

Definition nx_write_frame (handle : Z) (data : bytes) (timeout : timeout_t)
    (d : driver) : driver :=
  d ++ [mkWriteCall handle data timeout].

(** [OutFrames.write_bytes]; [bytes(frame_bytes)] of a byte string is that
    byte string. *)
Definition write_bytes (self : Collection) (frame_bytes : bytes)
    (timeout : timeout_t) (d : driver) : driver :=
  nx_write_frame (_handle self) frame_bytes timeout d.

(** [itertools.chain.from_iterable(serialize_frame(frame) for frame in
    raw_frames)], consumed to the end: the units of the first frame, then
    those of the second, and so on; the first exception ends it. *)
Fixpoint chain_from_iterable (raw_frames : list RawFrame)
    : result (list bytes) :=
  match raw_frames with
  | [] => Ok []
  | frame :: rest =>
      units <- serialize_frame frame ;;
      more <- chain_from_iterable rest ;;
      Ok (units ++ more)
  end.

(** [b"".join(units)]. *)
Definition bytes_join (units : list bytes) : bytes := List.concat units.

(** [OutFrames.write_raw]: nothing reaches the driver when a frame fails to
    serialize. *)
Definition write_raw (self : Collection) (raw_frames : list RawFrame)
    (timeout : timeout_t) (d : driver) : result unit * driver :=
  match chain_from_iterable raw_frames with
  | Ok units =>
      let data := bytes_join units in
      (Ok tt, write_bytes self data timeout d)
  | Raise e => (Raise e, d)
  end.

(** A generator expression handed to [write_raw] as [raw_frames]: its
    elements are computed one at a time, as the chain asks for them, and
    computing one may raise.  The units of an element are consumed before
    the next element is computed. *)
Fixpoint chain_from_generator (raw_frames : list (result RawFrame))
    : result (list bytes) :=
  match raw_frames with
  | [] => Ok []
  | next :: rest =>
      frame <- next ;;
      units <- serialize_frame frame ;;
      more <- chain_from_generator rest ;;
      Ok (units ++ more)
  end.

(** [OutFrames.write_raw] on such a generator. *)
Definition write_raw_generator (self : Collection)
    (raw_frames : list (result RawFrame)) (timeout : timeout_t) (d : driver)
    : result unit * driver :=
  match chain_from_generator raw_frames with
  | Ok units =>
      let data := bytes_join units in
      (Ok tt, write_bytes self data timeout d)
  | Raise e => (Raise e, d)
  end.

(** [OutFrames.write_can]: [write_raw] on the generator
    [(frame.to_raw() for frame in can_frames)]. *)
Definition write_can (self : Collection) (can_frames : list CanFrame)
    (timeout : timeout_t) (d : driver) : result unit * driver :=
  let raw_frames := map CanFrame_to_raw can_frames in
  write_raw_generator self raw_frames timeout d.

End OutFrames.

Arguments write_raw_generator {timeout_t} serialize_frame self raw_frames
  timeout d.
Arguments write_can {timeout_t} serialize_frame self can_frames timeout d.
Arguments mkWriteCall {timeout_t} w_handle w_bytes w_timeout.
Arguments w_handle {timeout_t} w.
Arguments w_bytes {timeout_t} w.
Arguments w_timeout {timeout_t} w.
Arguments nx_write_frame {timeout_t} handle data timeout d.
Arguments write_bytes {timeout_t} self frame_bytes timeout d.
Arguments write_raw {timeout_t} serialize_frame self raw_frames timeout d.

End Frames.

(* ------------------------------------------------------------------ *)
(** ** Properties of the identifier codec *)

Import Collection Frames.

(** The doctests of [types.py], run on the embedding. *)

Example doctest_from_raw_standard :
  CanIdentifier_from_raw 0x1 = mkCanIdentifier 0x1 false.
Proof. reflexivity. Qed.

Example doctest_from_raw_extended :
  CanIdentifier_from_raw 0x20000001 = mkCanIdentifier 0x1 true.
Proof. reflexivity. Qed.

Example doctest_int_standard :
  CanIdentifier_int (mkCanIdentifier 1 false) = Ok 0x1.
Proof. reflexivity. Qed.

Example doctest_int_extended :
  CanIdentifier_int (mkCanIdentifier 1 true) = Ok 0x20000001.
Proof. reflexivity. Qed.

Example doctest_CanFrame_from_raw :
  CanFrame_from_raw
    (mkRawFrame 5 0x20000001 CAN_DATA NX_FRAME_FLAGS_TRANSMIT_ECHO 0 [])
  = mkCanFrame (mkCanIdentifier 0x1 true) true CAN_DATA 0x5 [].
Proof. reflexivity. Qed.

Example doctest_CanFrame_to_raw :
  CanFrame_to_raw
    (CanFrame_init (IdObj (mkCanIdentifier 1 true)) (Some CAN_DATA) None)
  = Ok (mkRawFrame 0x0 0x20000001 CAN_DATA 0x0 0x0 []).
Proof. reflexivity. Qed.

Example doctest_CanBusErrorFrame_from_raw :
  CanBusErrorFrame_from_raw example_CanCommState example_CanLastErr
    (mkRawFrame 0x64 0x0 CAN_BUS_ERROR 0 0 [x00; x01; x02; x03; x04])
  = Ok (mkCanBusErrorFrame 0x64 (mkCanCommState 0) true (mkCanLastErr 1)
                           3 4).
Proof. reflexivity. Qed.

Example doctest_CanBusErrorFrame_to_raw :
  CanBusErrorFrame_to_raw
    (mkCanBusErrorFrame 100 (mkCanCommState 2) true (mkCanLastErr 1) 1 2)
  = Ok (mkRawFrame 0x64 0x0 CAN_BUS_ERROR 0x0 0x0
                   [x02; x01; x01; x01; x02]).
Proof. reflexivity. Qed.

Example iterate_three_items :
  drain (fun _ => 3) (fun _ => ["a"; "b"; "c"]%string) 10
        (Collection_init 7) GenCreated
  = ([mkItem 7 0 "a"; mkItem 7 1 "b"; mkItem 7 2 "c"],
     Some StopIteration,
     mkCollection 7 (Some ["a"; "b"; "c"]%string)).
Proof. reflexivity. Qed.

Section IdentifierFacts.

Lemma truthy_true_iff (n : Z) : truthy n = true <-> n <> 0.
Proof.
  unfold truthy. rewrite negb_true_iff, Z.eqb_neq. tauto.
Qed.

Lemma truthy_false_iff (n : Z) : truthy n = false <-> n = 0.
Proof.
  unfold truthy. rewrite negb_false_iff, Z.eqb_eq. tauto.
Qed.

(** A standard identifier that fits its mask leaves the extended bit clear. *)
Lemma fits_standard_flag_clear (id : Z) :
  Z.land id _FRAME_ID_MASK = id ->
  Z.land id NX_FRAME_ID_CAN_IS_EXTENDED = 0.
Proof.
  intros Hfit. rewrite <- Hfit, <- Z.land_assoc.
  replace (Z.land _FRAME_ID_MASK NX_FRAME_ID_CAN_IS_EXTENDED) with 0
    by reflexivity.
  apply Z.land_0_r.
Qed.

(** Setting the extended bit makes the flag test succeed. *)
Lemma flag_set_after_lor (id : Z) :
  Z.land (Z.lor id NX_FRAME_ID_CAN_IS_EXTENDED) NX_FRAME_ID_CAN_IS_EXTENDED
  <> 0.
Proof.
  rewrite Z.land_lor_distr_l, Z.land_diag.
  intros H. apply Z.lor_eq_0_iff in H. destruct H as [_ H]. discriminate H.
Qed.

(** Masking takes the extended bit off again and keeps an identifier that
    fits. *)
Lemma mask_after_lor (id : Z) :
  Z.land id _EXTENDED_FRAME_ID_MASK = id ->
  Z.land (Z.lor id NX_FRAME_ID_CAN_IS_EXTENDED) _EXTENDED_FRAME_ID_MASK = id.
Proof.
  intros Hfit. rewrite Z.land_lor_distr_l, Hfit.
  replace (Z.land NX_FRAME_ID_CAN_IS_EXTENDED _EXTENDED_FRAME_ID_MASK) with 0
    by reflexivity.
  apply Z.lor_0_r.
Qed.

(** [__int__] as one case distinction on the fit test. *)
Lemma CanIdentifier_int_cases (c : CanIdentifier) :
  CanIdentifier_int c =
    if identifier c =? Z.land (identifier c) (id_mask (extended c))
    then Ok (if extended c
             then Z.lor (identifier c) NX_FRAME_ID_CAN_IS_EXTENDED
             else identifier c)
    else Raise (XnetError NX_ERR_UNDEFINED_FRAME_ID).
Proof.
  unfold CanIdentifier_int, id_mask.
  destruct (extended c);
    destruct (identifier c =? Z.land (identifier c) _) eqn:E;
    reflexivity.
Qed.

Lemma CanIdentifier_eq_refl (c : CanIdentifier) : CanIdentifier_eq c c = true.
Proof.
  unfold CanIdentifier_eq. rewrite Z.eqb_refl, Bool.eqb_reflx. reflexivity.
Qed.

End IdentifierFacts.

(** C2: for every identifier value and extended flag such that the value
    fits the mask of the flag ([id & 0x3FF == id] for a standard identifier,
    [id & 0x1FFFFFFF == id] for an extended one), converting
    [CanIdentifier(id, extended)] with [int] succeeds, and [from_raw] of the
    raw value is [CanIdentifier(id, extended)] again: the same fields, and
    equal under [__eq__]. *)
Theorem CanIdentifier_roundtrip (id : Z) (ext : bool) :
  Z.land id (id_mask ext) = id ->
  exists raw,
    CanIdentifier_int (mkCanIdentifier id ext) = Ok raw
    /\ CanIdentifier_from_raw raw = mkCanIdentifier id ext
    /\ CanIdentifier_eq (CanIdentifier_from_raw raw) (mkCanIdentifier id ext)
       = true.
Proof.
  intros Hfit.
  rewrite CanIdentifier_int_cases. cbn [identifier extended].
  rewrite Hfit, Z.eqb_refl.
  eexists. split; [reflexivity|].
  assert (Hraw : CanIdentifier_from_raw
                   (if ext then Z.lor id NX_FRAME_ID_CAN_IS_EXTENDED else id)
                 = mkCanIdentifier id ext).
  { unfold CanIdentifier_from_raw. destruct ext; cbn [id_mask] in Hfit.
    - pose proof (flag_set_after_lor id) as Hset.
      apply truthy_true_iff in Hset. rewrite Hset.
      rewrite (mask_after_lor id Hfit). reflexivity.
    - pose proof (fits_standard_flag_clear id Hfit) as Hclear.
      apply truthy_false_iff in Hclear. rewrite Hclear, Hfit. reflexivity. }
  split; [exact Hraw|]. rewrite Hraw. apply CanIdentifier_eq_refl.
Qed.

(** The round trip at [CanIdentifier(0x1ABCDEF, extended=True)]. *)
Lemma CanIdentifier_roundtrip_witness :
  exists raw,
    CanIdentifier_int (mkCanIdentifier 0x1ABCDEF true) = Ok raw
    /\ CanIdentifier_from_raw raw = mkCanIdentifier 0x1ABCDEF true
    /\ CanIdentifier_eq (CanIdentifier_from_raw raw)
                        (mkCanIdentifier 0x1ABCDEF true) = true.
Proof.
  apply (CanIdentifier_roundtrip 0x1ABCDEF true). reflexivity.
Defined.

(** C3: [int(CanIdentifier(...))] raises the undefined-frame-identifier error
    exactly when the identifier differs from its value under the mask of its
    extended flag, and returns a raw value otherwise; a returned value is
    never a truncated one (masking it gives the identifier back); and
    [int(CanIdentifier(0x500, extended=False))] raises. *)
Theorem CanIdentifier_int_raises_iff_oversized :
  (forall c : CanIdentifier,
     CanIdentifier_int c = Raise (XnetError NX_ERR_UNDEFINED_FRAME_ID)
     <-> Z.land (identifier c) (id_mask (extended c)) <> identifier c)
  /\ (forall c : CanIdentifier,
        Z.land (identifier c) (id_mask (extended c)) = identifier c
        <-> exists raw, CanIdentifier_int c = Ok raw)
  /\ (forall (c : CanIdentifier) (raw : Z),
        CanIdentifier_int c = Ok raw ->
        Z.land raw (id_mask (extended c)) = identifier c)
  /\ CanIdentifier_int (mkCanIdentifier 0x500 false)
     = Raise (XnetError NX_ERR_UNDEFINED_FRAME_ID).
Proof.
  repeat split.
  - rewrite CanIdentifier_int_cases.
    destruct (identifier c =? _) eqn:E; [discriminate|].
    apply Z.eqb_neq in E. congruence.
  - intros Hne. rewrite CanIdentifier_int_cases.
    destruct (identifier c =? _) eqn:E; [|reflexivity].
    apply Z.eqb_eq in E. congruence.
  - intros Hfit. rewrite CanIdentifier_int_cases, Hfit, Z.eqb_refl. eauto.
  - intros [raw Hraw]. rewrite CanIdentifier_int_cases in Hraw.
    destruct (identifier c =? _) eqn:E; [|discriminate].
    apply Z.eqb_eq in E. congruence.
  - intros c raw Hraw. rewrite CanIdentifier_int_cases in Hraw.
    destruct (identifier c =? _) eqn:E; [|discriminate].
    apply Z.eqb_eq in E. injection Hraw as <-.
    destruct (extended c); cbn [id_mask] in *.
    + apply mask_after_lor. congruence.
    + congruence.
Qed.

(* ------------------------------------------------------------------ *)
(** ** Properties of the typed frames *)

Section BitFacts.

(** Testing a flag that is one bit: [a & 2^n] is non-zero exactly when bit
    [n] of [a] is set. *)
Lemma land_pow2_nonzero_iff (a n : Z) :
  0 <= n -> (Z.land a (2 ^ n) <> 0 <-> Z.testbit a n = true).
Proof.
  intros Hn. split.
  - intros Hnz. destruct (Z.testbit a n) eqn:Hbit; [reflexivity|].
    exfalso. apply Hnz. apply Z.bits_inj'. intros m Hm.
    rewrite Z.land_spec, Z.bits_0, Z.pow2_bits_eqb by assumption.
    destruct (Z.eqb_spec n m) as [->|_].
    + rewrite Hbit. reflexivity.
    + apply andb_false_r.
  - intros Hbit Hz.
    assert (Hland : Z.testbit (Z.land a (2 ^ n)) n = true).
    { rewrite Z.land_spec, Hbit, Z.pow2_bits_true by assumption.
      reflexivity. }
    rewrite Hz, Z.bits_0 in Hland. discriminate Hland.
Qed.

End BitFacts.

(** C8: a freshly constructed [CanFrame] has [echo] equal to [False]
    whatever the arguments of the constructor are (there is no [echo]
    argument), and [CanFrame.from_raw] sets [echo] to true exactly when the
    transmit-echo bit, bit 7 ([0x80]), of the raw frame's [flags] is set. *)
Theorem CanFrame_echo_only_from_flags :
  (forall (ident : identifier_arg) (type : option FrameType)
          (payload : option bytes),
     can_echo (CanFrame_init ident type payload) = false)
  /\ (forall frame : RawFrame,
        can_echo (CanFrame_from_raw frame) = true
        <-> Z.testbit (raw_flags frame) 7 = true)
  /\ (forall frame : RawFrame,
        can_echo (CanFrame_from_raw frame) = true
        <-> Z.land (raw_flags frame) NX_FRAME_FLAGS_TRANSMIT_ECHO <> 0).
Proof.
  split; [reflexivity|].
  assert (Hland : forall frame : RawFrame,
             can_echo (CanFrame_from_raw frame) = true
             <-> Z.land (raw_flags frame) NX_FRAME_FLAGS_TRANSMIT_ECHO <> 0).
  { intros frame. cbn [CanFrame_from_raw can_echo]. apply truthy_true_iff. }
  split; [|exact Hland].
  intros frame. rewrite Hland.
  change NX_FRAME_FLAGS_TRANSMIT_ECHO with (2 ^ 7).
  apply land_pow2_nonzero_iff. lia.
Qed.

Section Dispatch.

Variable is_CanCommState : Z -> bool.
Variable is_CanLastErr : Z -> bool.

Lemma dict_get_miss (t : FrameType) :
  ~ In t dispatch_tags -> dict_get frame_type_table t = None.
Proof.
  intros Hnot. destruct t; try reflexivity;
    exfalso; apply Hnot; cbn; tauto.
Qed.

Lemma dict_get_hit (t : FrameType) :
  In t dispatch_tags -> exists cls, dict_get frame_type_table t = Some cls.
Proof.
  cbn. intros H.
  repeat (destruct H as [<-|H]; [eexists; reflexivity|]).
  contradiction.
Qed.

(** Decoding a bus error frame never raises [NotImplementedError]. *)
Lemma CanBusErrorFrame_from_raw_implemented (frame : RawFrame) msg arg :
  CanBusErrorFrame_from_raw is_CanCommState is_CanLastErr frame
  <> Raise (NotImplementedError msg arg).
Proof.
  unfold CanBusErrorFrame_from_raw, indexbytes, CanCommState_call,
    CanLastErr_call.
  repeat (match goal with
          | |- context [nth_error ?l ?n] => destruct (nth_error l n)
          | |- context [is_CanCommState ?v] => destruct (is_CanCommState v)
          | |- context [is_CanLastErr ?v] => destruct (is_CanLastErr v)
          end; cbn [bind]);
    discriminate.
Qed.

Lemma class_from_raw_implemented cls (frame : RawFrame) msg arg :
  class_from_raw is_CanCommState is_CanLastErr cls frame
  <> Raise (NotImplementedError msg arg).
Proof.
  destruct cls; cbn [class_from_raw]; try discriminate.
  pose proof (CanBusErrorFrame_from_raw_implemented frame msg arg) as H.
  destruct (CanBusErrorFrame_from_raw _ _ frame); cbn [bind];
    [discriminate|congruence].
Qed.

End Dispatch.

(** C4: [XnetFrame.from_raw] looks the frame type up in a table that gives
    each of the nine tags one class, and decodes the raw frame with the
    [from_raw] of that class: a frame with one of the five CAN data, FD and
    remote tags is decoded by [CanFrame.from_raw], one with the bus error tag
    by [CanBusErrorFrame.from_raw] (whose exception, if any, passes
    through), one with a special tag by [DelayFrame.from_raw],
    [LogTriggerFrame.from_raw] or [StartTriggerFrame.from_raw].  A raw frame
    with any other tag raises [NotImplementedError("Unsupported frame type",
    tag)], and that error is raised for no frame with a listed tag. *)
Theorem XnetFrame_from_raw_dispatch
    (is_CanCommState is_CanLastErr : Z -> bool) :
  let from_raw := XnetFrame_from_raw is_CanCommState is_CanLastErr in
  let bus_from_raw :=
    CanBusErrorFrame_from_raw is_CanCommState is_CanLastErr in
  map (dict_get frame_type_table) dispatch_tags
  = [ Some CanFrame_cls; Some CanFrame_cls; Some CanFrame_cls;
      Some CanFrame_cls; Some CanFrame_cls; Some CanBusErrorFrame_cls;
      Some DelayFrame_cls; Some LogTriggerFrame_cls;
      Some StartTriggerFrame_cls ]
  /\ (forall t : FrameType,
        In t dispatch_tags <->
        exists cls, dict_get frame_type_table t = Some cls)
  /\ (forall frame : RawFrame,
        In (raw_type frame)
           [CAN_DATA; CAN20_DATA; CANFD_DATA; CANFDBRS_DATA; CAN_REMOTE] ->
        from_raw frame = Ok (Frame_Can (CanFrame_from_raw frame)))
  /\ (forall frame : RawFrame,
        raw_type frame = CAN_BUS_ERROR ->
        from_raw frame
        = match bus_from_raw frame with
          | Ok f => Ok (Frame_CanBusError f)
          | Raise e => Raise e
          end)
  /\ (forall frame : RawFrame,
        raw_type frame = SPECIAL_DELAY ->
        from_raw frame = Ok (Frame_Delay (DelayFrame_from_raw frame)))
  /\ (forall frame : RawFrame,
        raw_type frame = SPECIAL_LOG_TRIGGER ->
        from_raw frame
        = Ok (Frame_LogTrigger (LogTriggerFrame_from_raw frame)))
  /\ (forall frame : RawFrame,
        raw_type frame = SPECIAL_START_TRIGGER ->
        from_raw frame
        = Ok (Frame_StartTrigger (StartTriggerFrame_from_raw frame)))
  /\ (forall frame : RawFrame,
        ~ In (raw_type frame) dispatch_tags ->
        from_raw frame
        = Raise (NotImplementedError "Unsupported frame type"
                                     (raw_type frame)))
  /\ (forall (frame : RawFrame) msg arg,
        from_raw frame = Raise (NotImplementedError msg arg) ->
        ~ In (raw_type frame) dispatch_tags).
Proof.
  intros from_raw bus_from_raw. subst from_raw bus_from_raw.
  split; [reflexivity|].
  split; [|split; [|split; [|split; [|split; [|split; [|split]]]]]].
  - intros t. split; [apply dict_get_hit|].
    intros [cls Hcls] . destruct (in_dec FrameType_eq_dec t dispatch_tags)
      as [Hin|Hnot]; [exact Hin|].
    rewrite (dict_get_miss t Hnot) in Hcls. discriminate Hcls.
  - intros frame Hin. unfold XnetFrame_from_raw.
    destruct Hin as [H|[H|[H|[H|[H|[]]]]]]; rewrite <- H; reflexivity.
  - intros frame Hty. unfold XnetFrame_from_raw. rewrite Hty.
    cbn [dict_get frame_type_table]. cbn -[CanBusErrorFrame_from_raw].
    destruct (CanBusErrorFrame_from_raw _ _ frame); reflexivity.
  - intros frame Hty. unfold XnetFrame_from_raw. rewrite Hty. reflexivity.
  - intros frame Hty. unfold XnetFrame_from_raw. rewrite Hty. reflexivity.
  - intros frame Hty. unfold XnetFrame_from_raw. rewrite Hty. reflexivity.
  - intros frame Hnot. unfold XnetFrame_from_raw.
    rewrite (dict_get_miss _ Hnot). reflexivity.
  - intros frame msg arg Hraise Hin.
    destruct (dict_get_hit _ Hin) as [cls Hcls].
    unfold XnetFrame_from_raw in Hraise. rewrite Hcls in Hraise.
    exact (class_from_raw_implemented _ _ cls frame msg arg Hraise).
Qed.

Section BusError.

Variable is_CanCommState : Z -> bool.
Variable is_CanLastErr : Z -> bool.

Lemma byte_of_int_ok (n : Z) :
  0 <= n <= 255 ->
  exists b, byte_of_int n = Ok b /\ int_of_byte b = n.
Proof.
  intros Hn. unfold byte_of_int.
  assert (Hlo : (n <? 0) = false) by (apply Z.ltb_ge; lia).
  assert (Hhi : (255 <? n) = false) by (apply Z.ltb_ge; lia).
  rewrite Hlo, Hhi. cbn [orb].
  destruct (Byte.of_N (Z.to_N n)) as [b|] eqn:E.
  - exists b. split; [reflexivity|]. unfold int_of_byte.
    apply Byte.to_of_N in E. rewrite E. apply Z2N.id. lia.
  - apply Byte.of_N_None_iff in E. lia.
Qed.

(** [bytes([a, b, c, d, e])] of five integers in [range(256)] is the five
    of them. *)
Lemma bytes_of_five (a b c d e : Z) :
  0 <= a <= 255 -> 0 <= b <= 255 -> 0 <= c <= 255 ->
  0 <= d <= 255 -> 0 <= e <= 255 ->
  exists payload,
    bytes_of_ints [a; b; c; d; e] = Ok payload
    /\ map int_of_byte payload = [a; b; c; d; e].
Proof.
  intros Ha Hb Hc Hd He.
  destruct (byte_of_int_ok a Ha) as (ba & Ea & Ia).
  destruct (byte_of_int_ok b Hb) as (bb & Eb & Ib).
  destruct (byte_of_int_ok c Hc) as (bc & Ec & Ic).
  destruct (byte_of_int_ok d Hd) as (bd & Ed & Id).
  destruct (byte_of_int_ok e He) as (be & Ee & Ie).
  exists [ba; bb; bc; bd; be].
  cbn [bytes_of_ints]. rewrite Ea, Eb, Ec, Ed, Ee. cbn [bind map].
  rewrite Ia, Ib, Ic, Id, Ie. split; reflexivity.
Qed.

(** [from_raw] on a payload of at least five bytes, by its bytes. *)
Lemma CanBusErrorFrame_from_raw_bytes ts id ty fl inf b0 b1 b2 b3 b4 rest :
  CanBusErrorFrame_from_raw is_CanCommState is_CanLastErr
    (mkRawFrame ts id ty fl inf (b0 :: b1 :: b2 :: b3 :: b4 :: rest))
  = (state <- CanCommState_call is_CanCommState (int_of_byte b0) ;;
     bus_err <- CanLastErr_call is_CanLastErr (int_of_byte b1) ;;
     Ok (mkCanBusErrorFrame ts state (negb (int_of_byte b1 =? 0)) bus_err
                            (int_of_byte b3) (int_of_byte b4))).
Proof.
  unfold CanBusErrorFrame_from_raw, indexbytes.
  cbn [raw_payload raw_timestamp nth_error bind].
  destruct (CanCommState_call _ _); cbn [bind]; [|reflexivity].
  destruct (CanLastErr_call _ _); reflexivity.
Qed.

End BusError.

(** C1 (what the code does on that payload): with [1] a value of
    both enumerations, [CanBusErrorFrame.from_raw] on a [CAN_BUS_ERROR] raw
    frame with payload [[1,1,3,3,4]] gives state [CanCommState(1)],
    [tcvr_err=True], [tx_err_count=3], [rx_err_count=4] and the timestamp of
    the raw frame, but [bus_err=CanLastErr(1)], read from byte 1, and not the
    [CanLastErr(3)] that byte 2 holds; the dispatch of [XnetFrame.from_raw]
    gives the same frame. *)
Theorem CanBusErrorFrame_from_raw_reads_byte1
    (is_CanCommState is_CanLastErr : Z -> bool) (ts : Z) :
  is_CanCommState 1 = true ->
  is_CanLastErr 1 = true ->
  let raw := mkRawFrame ts 0 CAN_BUS_ERROR 0 0 [x01; x01; x03; x03; x04] in
  let decoded := mkCanBusErrorFrame ts (mkCanCommState 1) true
                                    (mkCanLastErr 1) 3 4 in
  CanBusErrorFrame_from_raw is_CanCommState is_CanLastErr raw = Ok decoded
  /\ XnetFrame_from_raw is_CanCommState is_CanLastErr raw
     = Ok (Frame_CanBusError decoded)
  /\ bus_err decoded <> mkCanLastErr 3.
Proof.
  intros Hstate Herr raw decoded. subst raw decoded.
  assert (Hraw : CanBusErrorFrame_from_raw is_CanCommState is_CanLastErr
                   (mkRawFrame ts 0 CAN_BUS_ERROR 0 0
                               [x01; x01; x03; x03; x04])
                 = Ok (mkCanBusErrorFrame ts (mkCanCommState 1) true
                                          (mkCanLastErr 1) 3 4)).
  { rewrite CanBusErrorFrame_from_raw_bytes.
    unfold CanCommState_call, CanLastErr_call.
    change (int_of_byte x01) with 1. rewrite Hstate, Herr. reflexivity. }
  split; [exact Hraw|]. split.
  - unfold XnetFrame_from_raw. cbn [raw_type dict_get frame_type_table].
    cbn. cbn in Hraw. rewrite Hraw. reflexivity.
  - cbn. discriminate.
Qed.

(** The payload [[1,1,3,3,4]] at timestamp 100 under the example tables. *)
Lemma CanBusErrorFrame_from_raw_reads_byte1_witness :
  let raw := mkRawFrame 100 0 CAN_BUS_ERROR 0 0 [x01; x01; x03; x03; x04] in
  let decoded := mkCanBusErrorFrame 100 (mkCanCommState 1) true
                                    (mkCanLastErr 1) 3 4 in
  CanBusErrorFrame_from_raw example_CanCommState example_CanLastErr raw
  = Ok decoded
  /\ XnetFrame_from_raw example_CanCommState example_CanLastErr raw
     = Ok (Frame_CanBusError decoded)
  /\ bus_err decoded <> mkCanLastErr 3.
Proof.
  apply (CanBusErrorFrame_from_raw_reads_byte1
           example_CanCommState example_CanLastErr 100);
    reflexivity.
Defined.

(** C9: [CanBusErrorFrame.to_raw] writes the payload
    [[state, tcvr_err as 0/1, bus_err, tx_err_count, rx_err_count]], with
    [bus_err] at offset 2; the result of [CanBusErrorFrame.from_raw] does not
    depend on the byte at offset 2; and for every bus error frame [f] whose
    state is a member of its enumeration and whose five payload values are
    bytes, [from_raw(f.to_raw())] keeps the timestamp, the state, [tcvr_err]
    and both counters and has [bus_err] equal to [CanLastErr(1)] when
    [f.tcvr_err] is true and [CanLastErr(0)] when it is false, whatever
    [f.bus_err] is (that value has to be a member for [from_raw] to
    return). *)
Theorem CanBusErrorFrame_roundtrip_loses_bus_err
    (is_CanCommState is_CanLastErr : Z -> bool) (f : CanBusErrorFrame) :
  is_CanCommState (CanCommState_value (state f)) = true ->
  is_CanLastErr (if tcvr_err f then 1 else 0) = true ->
  0 <= CanCommState_value (state f) <= 255 ->
  0 <= CanLastErr_value (bus_err f) <= 255 ->
  0 <= tx_err_count f <= 255 ->
  0 <= rx_err_count f <= 255 ->
  (exists raw,
     CanBusErrorFrame_to_raw f = Ok raw
     /\ map int_of_byte (raw_payload raw)
        = [ CanCommState_value (state f);
            if tcvr_err f then 1 else 0;
            CanLastErr_value (bus_err f);
            tx_err_count f;
            rx_err_count f ]
     /\ CanBusErrorFrame_from_raw is_CanCommState is_CanLastErr raw
        = Ok (mkCanBusErrorFrame
                (timestamp f) (state f) (tcvr_err f)
                (mkCanLastErr (if tcvr_err f then 1 else 0))
                (tx_err_count f) (rx_err_count f)))
  /\ (forall ts id ty fl inf b0 b1 b2 b2' rest,
        CanBusErrorFrame_from_raw is_CanCommState is_CanLastErr
          (mkRawFrame ts id ty fl inf (b0 :: b1 :: b2 :: rest))
        = CanBusErrorFrame_from_raw is_CanCommState is_CanLastErr
            (mkRawFrame ts id ty fl inf (b0 :: b1 :: b2' :: rest))).
Proof.
  intros Hstate Herr Hs Hb Htx Hrx. split; [|reflexivity].
  assert (Hflag : 0 <= (if tcvr_err f then 1 else 0) <= 255)
    by (destruct (tcvr_err f); lia).
  destruct (bytes_of_five _ _ _ _ _ Hs Hflag Hb Htx Hrx)
    as (payload & Hpayload & Hints).
  exists (mkRawFrame (timestamp f) 0 CAN_BUS_ERROR 0 0 payload).
  split; [|split].
  - unfold CanBusErrorFrame_to_raw. rewrite Hpayload. reflexivity.
  - exact Hints.
  - destruct payload as [|b0 [|b1 [|b2 [|b3 [|b4 [|? ?]]]]]];
      try discriminate Hints.
    cbn [map] in Hints. injection Hints as H0 H1 H2 H3 H4.
    rewrite CanBusErrorFrame_from_raw_bytes.
    unfold CanCommState_call, CanLastErr_call.
    rewrite H0, H1, H3, H4, Hstate, Herr. cbn [bind].
    destruct f as [ts [sv] tc be tx rx]. cbn.
    destruct tc; reflexivity.
Qed.

(** The round trip of [CanBusErrorFrame(100, CanCommState(2), True,
    CanLastErr(6), 1, 2)] under the example tables: [bus_err] comes back as
    [CanLastErr(1)]. *)
Lemma CanBusErrorFrame_roundtrip_loses_bus_err_witness :
  let f := mkCanBusErrorFrame 100 (mkCanCommState 2) true (mkCanLastErr 6)
                              1 2 in
  (exists raw,
     CanBusErrorFrame_to_raw f = Ok raw
     /\ map int_of_byte (raw_payload raw) = [2; 1; 6; 1; 2]
     /\ CanBusErrorFrame_from_raw example_CanCommState example_CanLastErr raw
        = Ok (mkCanBusErrorFrame 100 (mkCanCommState 2) true
                                 (mkCanLastErr 1) 1 2))
  /\ (forall ts id ty fl inf b0 b1 b2 b2' rest,
        CanBusErrorFrame_from_raw example_CanCommState example_CanLastErr
          (mkRawFrame ts id ty fl inf (b0 :: b1 :: b2 :: rest))
        = CanBusErrorFrame_from_raw example_CanCommState example_CanLastErr
            (mkRawFrame ts id ty fl inf (b0 :: b1 :: b2' :: rest))).
Proof.
  apply (CanBusErrorFrame_roundtrip_loses_bus_err
           example_CanCommState example_CanLastErr
           (mkCanBusErrorFrame 100 (mkCanCommState 2) true (mkCanLastErr 6)
                               1 2));
    cbn; first [reflexivity | lia].
Defined.

(* ------------------------------------------------------------------ *)
(** ** Properties of the collections *)

Section CollectionFacts.

Variable get_session_num_in_list : Z -> Z.
Variable get_session_list : Z -> list string.

Local Abbreviation list_cache := (_list_cache get_session_list).

(** Reading the cache keeps the handle and leaves the cache filled with the
    list that was read. *)
Lemma list_cache_spec (self : Collection) :
  _handle (snd (list_cache self)) = _handle self
  /\ __list_cache (snd (list_cache self)) = Some (fst (list_cache self)).
Proof.
  unfold _list_cache. destruct (__list_cache self) eqn:E; cbn; auto.
Qed.

(** A second read gives the same list and changes nothing. *)
Lemma list_cache_idempotent (self : Collection) :
  list_cache (snd (list_cache self))
  = (fst (list_cache self), snd (list_cache self)).
Proof.
  destruct (list_cache_spec self) as [_ Hc].
  unfold _list_cache at 1. rewrite Hc. reflexivity.
Qed.

Lemma list_cache_pair (self : Collection) :
  list_cache self = (fst (list_cache self), snd (list_cache self)).
Proof. apply surjective_pairing. Qed.

(** Indexing a list with an index in [-len, len). *)
Lemma list_getitem_in_range {A : Type} (seq : list A) (i : Z) :
  - Z.of_nat (List.length seq) <= i < Z.of_nat (List.length seq) ->
  exists x,
    nth_error seq
      (Z.to_nat (if i <? 0 then i + Z.of_nat (List.length seq) else i))
    = Some x
    /\ list_getitem seq i = Ok x.
Proof.
  intros Hi. unfold list_getitem.
  set (n := Z.of_nat (List.length seq)) in *.
  set (j := if i <? 0 then i + n else i).
  assert (Hj : 0 <= j < n).
  { subst j. destruct (Z.ltb_spec i 0); lia. }
  assert (Hlo : (j <? 0) = false) by (apply Z.ltb_ge; lia).
  assert (Hhi : (n <=? j) = false) by (apply Z.leb_gt; lia).
  rewrite Hlo, Hhi. cbn [orb].
  destruct (nth_error seq (Z.to_nat j)) as [x|] eqn:E.
  - exists x. split; reflexivity.
  - apply nth_error_None in E. subst n. lia.
Qed.

(** Indexing a list with an index outside [-len, len). *)
Lemma list_getitem_out_of_range {A : Type} (seq : list A) (i : Z) :
  i < - Z.of_nat (List.length seq) \/ Z.of_nat (List.length seq) <= i ->
  list_getitem seq i = Raise IndexError.
Proof.
  intros Hi. unfold list_getitem.
  set (n := Z.of_nat (List.length seq)) in *.
  assert (Hn : 0 <= n) by (subst n; lia).
  destruct (Z.ltb_spec i 0) as [Hneg|Hpos].
  - destruct (Z.ltb_spec (i + n) 0); [reflexivity|]. lia.
  - destruct (Z.ltb_spec i 0); [lia|].
    destruct (Z.leb_spec n i); [reflexivity|lia].
Qed.

(** The loop of [__iter__] resumed after the names [done]: it yields the
    remaining items in order and stops. *)
Lemma drain_suspended (self : Collection) (rest done : list string)
    (fuel : nat) :
  (List.length rest < fuel)%nat ->
  drain get_session_num_in_list get_session_list fuel self
        (GenSuspended (done ++ rest) (List.length done))
  = (items_from (_handle self) (List.length done) rest,
     Some StopIteration, self).
Proof.
  revert done fuel.
  induction rest as [|name rest IH]; intros done fuel Hfuel;
    (destruct fuel as [|fuel]; [cbn in Hfuel; lia|]).
  - cbn [drain Collection_iter_next]. unfold iter_loop.
    replace (nth_error (done ++ []) (List.length done)) with (@None string).
    + reflexivity.
    + symmetry. apply nth_error_None. rewrite app_nil_r. lia.
  - cbn [drain Collection_iter_next]. unfold iter_loop.
    rewrite nth_error_app2, Nat.sub_diag by lia. cbn [nth_error].
    specialize (IH (done ++ [name]) fuel).
    rewrite <- app_assoc, length_app in IH. cbn [app List.length] in IH.
    rewrite Nat.add_1_r in IH. rewrite IH by (cbn in Hfuel; lia).
    reflexivity.
Qed.

(** When the driver's count agrees with the cached list, iterating yields
    one item per name, in cache order, with the positions as indices. *)
Lemma Collection_iter_yields_all (self : Collection) (fuel : nat) :
  get_session_num_in_list (_handle self)
  = Z.of_nat (List.length (fst (list_cache self))) ->
  (List.length (fst (list_cache self)) < fuel)%nat ->
  drain get_session_num_in_list get_session_list fuel self GenCreated
  = (items_from (_handle self) 0 (fst (list_cache self)),
     Some StopIteration, snd (list_cache self)).
Proof.
  intros Hcount Hfuel.
  destruct (list_cache_spec self) as [Hhandle _].
  pose proof (drain_suspended (snd (list_cache self))
                (fst (list_cache self)) [] fuel Hfuel) as Hloop.
  cbn [app List.length] in Hloop. rewrite Hhandle in Hloop.
  rewrite <- Hloop.
  destruct fuel as [|fuel]; [lia|].
  cbn [drain Collection_iter_next].
  unfold Collection_len. rewrite (list_cache_pair self), Hcount, Z.eqb_refl.
  reflexivity.
Qed.

End CollectionFacts.

(** C5: for every collection whose item count, as the driver reports it,
    differs from the length of its cached name list (the list already in the
    cache, or the one the first read puts there), the first [next()] on the
    generator of [__iter__] raises [AssertionError] and finishes the
    generator: iterating the collection yields no item before it raises. *)
Theorem Collection_iter_asserts_count
    (get_session_num_in_list : Z -> Z) (get_session_list : Z -> list string)
    (self : Collection) :
  let item_names := fst (_list_cache get_session_list self) in
  let self' := snd (_list_cache get_session_list self) in
  get_session_num_in_list (_handle self)
  <> Z.of_nat (List.length item_names) ->
  Collection_iter_next get_session_num_in_list get_session_list self
                       GenCreated
  = (Raised AssertionError, GenFinished, self')
  /\ (forall fuel : nat,
        drain get_session_num_in_list get_session_list (S fuel) self
              GenCreated
        = ([], Some (Raised AssertionError), self'))
  /\ Collection_iter_next get_session_num_in_list get_session_list self'
                          GenFinished
     = (StopIteration, GenFinished, self').
Proof.
  intros item_names self' Hdiff.
  assert (Hnext : Collection_iter_next get_session_num_in_list
                    get_session_list self GenCreated
                  = (Raised AssertionError, GenFinished, self')).
  { unfold Collection_iter_next, Collection_len.
    rewrite (list_cache_pair get_session_list self).
    fold item_names. fold self'.
    apply Z.eqb_neq in Hdiff. rewrite Hdiff. reflexivity. }
  split; [exact Hnext|]. split; [|reflexivity].
  intros fuel. cbn [drain]. rewrite Hnext. reflexivity.
Qed.

(** A collection on handle 7 whose driver counts two items and lists
    three. *)
Lemma Collection_iter_asserts_count_witness :
  let num := fun _ : Z => 2 in
  let lst := fun _ : Z => ["a"; "b"; "c"]%string in
  let self := Collection_init 7 in
  let self' := mkCollection 7 (Some ["a"; "b"; "c"]%string) in
  Collection_iter_next num lst self GenCreated
  = (Raised AssertionError, GenFinished, self')
  /\ (forall fuel : nat,
        drain num lst (S fuel) self GenCreated
        = ([], Some (Raised AssertionError), self'))
  /\ Collection_iter_next num lst self' GenFinished
     = (StopIteration, GenFinished, self').
Proof.
  apply (Collection_iter_asserts_count
           (fun _ : Z => 2) (fun _ : Z => ["a"; "b"; "c"]%string)
           (Collection_init 7)).
  cbn. lia.
Defined.

(** C6: for a collection whose cached name list is [["a","b","c"]] (already
    cached, or cached by the first read): [self[1]] and [self["b"]] return
    items with the handle of the collection and index 1, equal under
    [Item.__eq__]; [3 in self] and ["z" in self] are false;
    [self.get("z", default)] returns the default, [None] included, without
    raising; and [self.get(key, default)] with a key that is neither an
    integer nor a string raises [TypeError]. *)
Theorem Collection_lookup_abc
    (get_session_list : Z -> list string) (self : Collection)
    (D : Type) (default : D) :
  fst (_list_cache get_session_list self) = ["a"; "b"; "c"]%string ->
  let self' := snd (_list_cache get_session_list self) in
  let by_index := mkItem (_handle self) 1 "b" in
  Collection_getitem get_session_list self (KeyInt 1) = (Ok by_index, self')
  /\ Collection_getitem get_session_list self (KeyStr "b")
     = (Ok by_index, self')
  /\ Item_eq by_index by_index = true
  /\ Collection_contains get_session_list self (KeyInt 3) = (Ok false, self')
  /\ Collection_contains get_session_list self (KeyStr "z")
     = (Ok false, self')
  /\ Collection_get get_session_list self (KeyStr "z") default
     = (Ok (inr default), self')
  /\ Collection_get get_session_list self (KeyStr "z") (@None Item)
     = (Ok (inr None), self')
  /\ Collection_get get_session_list self KeyOther default
     = (Raise TypeError, self)
  /\ Collection_getitem get_session_list self KeyOther
     = (Raise TypeError, self).
Proof.
  intros Hnames self' by_index.
  destruct (list_cache_spec get_session_list self) as [Hhandle _].
  fold self' in Hhandle.
  unfold Collection_getitem, Collection_contains, Collection_get.
  rewrite (list_cache_pair get_session_list self), Hnames.
  fold self'. rewrite Hhandle. subst by_index.
  unfold Item_eq. cbn [item_handle item_index].
  rewrite !Z.eqb_refl. cbn.
  repeat split; reflexivity.
Qed.

(** A fresh collection on handle 7 whose driver lists [a], [b], [c]. *)
Lemma Collection_lookup_abc_witness :
  let lst := fun _ : Z => ["a"; "b"; "c"]%string in
  let self := Collection_init 7 in
  let self' := mkCollection 7 (Some ["a"; "b"; "c"]%string) in
  let by_index := mkItem 7 1 "b" in
  Collection_getitem lst self (KeyInt 1) = (Ok by_index, self')
  /\ Collection_getitem lst self (KeyStr "b") = (Ok by_index, self')
  /\ Item_eq by_index by_index = true
  /\ Collection_contains lst self (KeyInt 3) = (Ok false, self')
  /\ Collection_contains lst self (KeyStr "z") = (Ok false, self')
  /\ Collection_get lst self (KeyStr "z") 0 = (Ok (inr 0), self')
  /\ Collection_get lst self (KeyStr "z") (@None Item)
     = (Ok (inr None), self')
  /\ Collection_get lst self KeyOther 0 = (Raise TypeError, self)
  /\ Collection_getitem lst self KeyOther = (Raise TypeError, self).
Proof.
  apply (Collection_lookup_abc (fun _ : Z => ["a"; "b"; "c"]%string)
                               (Collection_init 7) Z 0).
  reflexivity.
Defined.

(** C10: for every collection with a cached name list of length [n] and
    every negative integer [k]: [k in self] is false; when [-n <= k],
    [self[k]] and [self.get(k, default)] succeed and return the item built
    from the handle, the negative index [k] itself and the name at position
    [n + k] of the list; when [k < -n], [self[k]] raises [IndexError] (and
    [self.get(k, default)] returns the default). *)
Theorem Collection_negative_index
    (get_session_list : Z -> list string) (self : Collection)
    (D : Type) (default : D) (k : Z) :
  k <= -1 ->
  let names := fst (_list_cache get_session_list self) in
  let self' := snd (_list_cache get_session_list self) in
  let n := Z.of_nat (List.length names) in
  Collection_contains get_session_list self (KeyInt k) = (Ok false, self)
  /\ (- n <= k ->
      exists name,
        nth_error names (Z.to_nat (n + k)) = Some name
        /\ Collection_getitem get_session_list self (KeyInt k)
           = (Ok (mkItem (_handle self) k name), self')
        /\ Collection_get get_session_list self (KeyInt k) default
           = (Ok (inl (mkItem (_handle self) k name)), self'))
  /\ (k < - n ->
      Collection_getitem get_session_list self (KeyInt k)
      = (Raise IndexError, self')
      /\ Collection_get get_session_list self (KeyInt k) default
         = (Ok (inr default), self')).
Proof.
  intros Hneg names self' n.
  destruct (list_cache_spec get_session_list self) as [Hhandle _].
  fold self' in Hhandle.
  split; [|split].
  - unfold Collection_contains.
    destruct (Z.leb_spec 0 k); [lia|reflexivity].
  - intros Hlow.
    destruct (list_getitem_in_range names k) as (name & Hnth & Hget).
    { fold n. lia. }
    fold n in Hnth.
    assert (Hk : (k <? 0) = true) by (apply Z.ltb_lt; lia).
    rewrite Hk, Z.add_comm in Hnth.
    exists name. split; [exact Hnth|].
    unfold Collection_getitem, Collection_get.
    rewrite (list_cache_pair get_session_list self).
    fold names. fold self'. rewrite Hget, Hhandle.
    unfold _create_item. split; reflexivity.
  - intros Hlow.
    assert (Hget : list_getitem names k = Raise IndexError).
    { apply list_getitem_out_of_range. fold n. lia. }
    unfold Collection_getitem, Collection_get.
    rewrite (list_cache_pair get_session_list self).
    fold names. fold self'. rewrite Hget. split; reflexivity.
Qed.

(** Index [-1] on the names [a], [b], [c]: not contained, yet looked up as
    the item with index [-1] and name [c]. *)
Lemma Collection_negative_index_witness :
  let lst := fun _ : Z => ["a"; "b"; "c"]%string in
  let self := Collection_init 7 in
  let self' := mkCollection 7 (Some ["a"; "b"; "c"]%string) in
  Collection_contains lst self (KeyInt (-1)) = (Ok false, self)
  /\ Collection_getitem lst self (KeyInt (-1))
     = (Ok (mkItem 7 (-1) "c"), self')
  /\ Collection_get lst self (KeyInt (-1)) 0
     = (Ok (inl (mkItem 7 (-1) "c")), self').
Proof.
  destruct (Collection_negative_index (fun _ : Z => ["a"; "b"; "c"]%string)
                                      (Collection_init 7) Z 0 (-1))
    as (Hcontains & Hin & _); [lia|].
  destruct Hin as (name & Hname & Hgetitem & Hget); [cbn; lia|].
  cbn in Hname. injection Hname as <-.
  split; [exact Hcontains|]. split; [exact Hgetitem|exact Hget].
Defined.

(* ------------------------------------------------------------------ *)
(** ** Properties of OutFrames.write_raw *)

Section WriteRaw.

Variable timeout_t : Type.
Variable serialize_frame : RawFrame -> result (list bytes).

(** When every frame serializes, the chain holds the units of the first
    frame, then those of the second, and so on. *)
Lemma chain_from_iterable_units (raw_frames : list RawFrame)
    (units : list (list bytes)) :
  Forall2 (fun frame us => serialize_frame frame = Ok us) raw_frames units ->
  chain_from_iterable serialize_frame raw_frames = Ok (List.concat units).
Proof.
  induction 1 as [|frame us rest uss Hus _ IH]; [reflexivity|].
  cbn [chain_from_iterable]. rewrite Hus, IH. reflexivity.
Qed.

(** The first frame that fails to serialize decides the exception. *)
Lemma chain_from_iterable_raise (before : list RawFrame)
    (units : list (list bytes)) (frame : RawFrame) (after : list RawFrame)
    (e : exn) :
  Forall2 (fun frame us => serialize_frame frame = Ok us) before units ->
  serialize_frame frame = Raise e ->
  chain_from_iterable serialize_frame (before ++ frame :: after) = Raise e.
Proof.
  intros Hbefore Hframe.
  induction Hbefore as [|f us rest uss Hus _ IH].
  - cbn [app chain_from_iterable]. rewrite Hframe. reflexivity.
  - cbn [app chain_from_iterable]. rewrite Hus, IH. reflexivity.
Qed.

(** Either every frame serializes, or there is a first one that does not. *)
Lemma serialize_all_or_first_failure (raw_frames : list RawFrame) :
  (exists units,
     Forall2 (fun frame us => serialize_frame frame = Ok us)
             raw_frames units)
  \/ (exists before units frame after e,
        raw_frames = before ++ frame :: after
        /\ Forall2 (fun frame us => serialize_frame frame = Ok us)
                   before units
        /\ serialize_frame frame = Raise e).
Proof.
  induction raw_frames as [|frame rest IH].
  - left. exists []. constructor.
  - destruct (serialize_frame frame) as [us|e] eqn:Hframe.
    + destruct IH as [[units Hall]|(before & units & f & after & e & Heq
                                    & Hbefore & Hf)].
      * left. exists (us :: units). constructor; assumption.
      * right. exists (frame :: before), (us :: units), f, after, e.
        split; [rewrite Heq; reflexivity|].
        split; [constructor; assumption|exact Hf].
    + right. exists [], [], frame, rest, e.
      split; [reflexivity|]. split; [constructor|exact Hframe].
Qed.

(** Flattening twice is flattening each part and then the parts. *)
Lemma concat_concat_map {A : Type} (parts : list (list (list A))) :
  List.concat (List.concat parts)
  = List.concat (map (@List.concat A) parts).
Proof.
  induction parts as [|part rest IH]; [reflexivity|].
  cbn [List.concat map]. rewrite concat_app, IH. reflexivity.
Qed.

End WriteRaw.

(** Two frames under a serializer that yields a one-byte unit holding the
    flags and a second unit holding the payload: the driver receives the
    four units end to end, in one call. *)
Example write_raw_two_frames :
  write_raw
    (fun frame =>
       match Byte.of_N (Z.to_N (raw_flags frame)) with
       | Some b => Ok [[b]; raw_payload frame]
       | None => Raise ValueError
       end)
    (Collection_init 7)
    [ mkRawFrame 1 0x10 CAN_DATA 0x80 0 [x0a; x0b];
      mkRawFrame 2 0x11 CAN_DATA 0 0 [x0c] ]
    10 []
  = (Ok tt, [mkWriteCall 7 [x80; x0a; x0b; x00; x0c] 10]).
Proof. reflexivity. Qed.

(** C7: for every finite sequence of raw frames, the byte string that
    [OutFrames.write_raw] hands to [write_bytes], and so to the driver, in
    one call with the collection's handle and the timeout, is the
    concatenation, in input order, of the serializations of the frames, the
    serialization of a frame being the units [serialize_frame] yields for
    it, end to end: no byte is added, dropped or moved.  When a frame fails
    to serialize, the exception of the first such frame passes through and
    the driver receives nothing.  Every input is one of these two cases. *)
Theorem write_raw_is_concatenation
    (timeout_t : Type) (serialize_frame : RawFrame -> result (list bytes))
    (self : Collection) (raw_frames : list RawFrame) (timeout : timeout_t)
    (d : list (write_call timeout_t)) :
  (forall units : list (list bytes),
     Forall2 (fun frame us => serialize_frame frame = Ok us)
             raw_frames units ->
     write_raw serialize_frame self raw_frames timeout d
     = (Ok tt,
        d ++ [mkWriteCall (_handle self)
                (List.concat (map (@List.concat byte) units)) timeout])
     /\ List.concat (map (@List.concat byte) units)
        = List.concat (List.concat units))
  /\ (forall before units frame after e,
        raw_frames = before ++ frame :: after ->
        Forall2 (fun frame us => serialize_frame frame = Ok us)
                before units ->
        serialize_frame frame = Raise e ->
        write_raw serialize_frame self raw_frames timeout d = (Raise e, d))
  /\ ((exists units,
         Forall2 (fun frame us => serialize_frame frame = Ok us)
                 raw_frames units)
      \/ (exists before units frame after e,
            raw_frames = before ++ frame :: after
            /\ Forall2 (fun frame us => serialize_frame frame = Ok us)
                       before units
            /\ serialize_frame frame = Raise e)).
Proof.
  split; [|split].
  - intros units Hall.
    assert (Hflat : List.concat (map (@List.concat byte) units)
                    = List.concat (List.concat units))
      by (symmetry; apply (concat_concat_map (A:=byte))).
    split; [|exact Hflat].
    unfold write_raw.
    rewrite (chain_from_iterable_units serialize_frame raw_frames units Hall).
    unfold bytes_join, write_bytes, nx_write_frame.
    rewrite Hflat. reflexivity.
  - intros before units frame after e -> Hbefore Hframe.
    unfold write_raw.
    rewrite (chain_from_iterable_raise serialize_frame before units frame
               after e Hbefore Hframe).
    reflexivity.
  - apply serialize_all_or_first_failure.
Qed.

(* ------------------------------------------------------------------ *)
(** ** Further properties of the identifier codec and of CanFrame *)

Section RawFacts.

(** The raw value of an identifier determines it. *)
Lemma CanIdentifier_int_inv (c : CanIdentifier) (raw : Z) :
  CanIdentifier_int c = Ok raw -> CanIdentifier_from_raw raw = c.
Proof.
  rewrite CanIdentifier_int_cases.
  destruct (identifier c =? _) eqn:E; [|discriminate].
  apply Z.eqb_eq in E. symmetry in E. intros [= <-].
  destruct c as [id ext]. cbn [identifier extended] in *.
  unfold CanIdentifier_from_raw. destruct ext; cbn [id_mask] in E.
  - pose proof (flag_set_after_lor id) as Hset.
    apply truthy_true_iff in Hset. rewrite Hset.
    rewrite (mask_after_lor id E). reflexivity.
  - pose proof (fits_standard_flag_clear id E) as Hclear.
    apply truthy_false_iff in Hclear. rewrite Hclear, E. reflexivity.
Qed.

Lemma truthy_flag_is_bit29 (raw : Z) :
  truthy (Z.land raw NX_FRAME_ID_CAN_IS_EXTENDED) = Z.testbit raw 29.
Proof.
  change NX_FRAME_ID_CAN_IS_EXTENDED with (2 ^ 29).
  destruct (Z.testbit raw 29) eqn:Hbit.
  - apply truthy_true_iff. apply land_pow2_nonzero_iff; [lia|exact Hbit].
  - apply truthy_false_iff.
    destruct (Z.eq_dec (Z.land raw (2 ^ 29)) 0) as [Hz|Hnz]; [exact Hz|].
    apply land_pow2_nonzero_iff in Hnz; [congruence|lia].
Qed.

(** With bit 29 set, masking to 29 bits and setting bit 29 again keeps the
    low 30 bits. *)
Lemma mask_then_flag (raw : Z) :
  Z.testbit raw 29 = true ->
  Z.lor (Z.land raw _EXTENDED_FRAME_ID_MASK) NX_FRAME_ID_CAN_IS_EXTENDED
  = Z.land raw 0x3FFFFFFF.
Proof.
  intros Hbit. apply Z.bits_inj'. intros n Hn.
  change _EXTENDED_FRAME_ID_MASK with (Z.ones 29).
  change NX_FRAME_ID_CAN_IS_EXTENDED with (2 ^ 29).
  change 0x3FFFFFFF with (Z.ones 30).
  rewrite Z.lor_spec, !Z.land_spec, !Z.testbit_ones_nonneg by lia.
  rewrite Z.pow2_bits_eqb by lia.
  destruct (Z.ltb_spec n 29), (Z.ltb_spec n 30), (Z.eqb_spec 29 n);
    try lia; subst; rewrite ?Hbit, ?andb_true_r, ?andb_false_r, ?orb_false_r,
      ?orb_true_r; reflexivity.
Qed.

(** The identifier [from_raw] gives always fits its own mask. *)
Lemma from_raw_fits (raw : Z) :
  let c := CanIdentifier_from_raw raw in
  Z.land (identifier c) (id_mask (extended c)) = identifier c.
Proof.
  unfold CanIdentifier_from_raw.
  destruct (truthy _); cbn [identifier extended id_mask];
    rewrite <- Z.land_assoc, Z.land_diag; reflexivity.
Qed.

(** The raw value of a decoded identifier. *)
Lemma int_from_raw (raw : Z) :
  CanIdentifier_int (CanIdentifier_from_raw raw)
  = Ok (if Z.testbit raw 29 then Z.land raw 0x3FFFFFFF
        else Z.land raw _FRAME_ID_MASK).
Proof.
  rewrite CanIdentifier_int_cases.
  pose proof (from_raw_fits raw) as Hfit. cbv zeta in Hfit.
  rewrite Hfit, Z.eqb_refl.
  unfold CanIdentifier_from_raw. rewrite truthy_flag_is_bit29.
  destruct (Z.testbit raw 29) eqn:Hbit; cbn [identifier extended].
  - rewrite (mask_then_flag raw Hbit). reflexivity.
  - reflexivity.
Qed.

End RawFacts.

(** X1: whatever the raw integer (negative or wider than 32 bits included),
    [CanIdentifier.from_raw] gives an identifier that fits the mask of its
    own extended flag and is non-negative; so [int] of it never raises, and
    gives the low 30 bits of the raw value when bit 29 is set and the low 10
    bits otherwise. *)
Theorem CanIdentifier_from_raw_always_valid (raw : Z) :
  let c := CanIdentifier_from_raw raw in
  extended c = Z.testbit raw 29
  /\ Z.land (identifier c) (id_mask (extended c)) = identifier c
  /\ 0 <= identifier c <= id_mask (extended c)
  /\ CanIdentifier_int c
     = Ok (if Z.testbit raw 29 then Z.land raw 0x3FFFFFFF
           else Z.land raw 0x3FF).
Proof.
  intros c. subst c. split; [|split; [|split]].
  - unfold CanIdentifier_from_raw. rewrite truthy_flag_is_bit29.
    destruct (Z.testbit raw 29); reflexivity.
  - apply from_raw_fits.
  - unfold CanIdentifier_from_raw.
    destruct (truthy _); cbn [identifier extended id_mask].
    + change _EXTENDED_FRAME_ID_MASK with (Z.ones 29).
      rewrite Z.land_ones by lia.
      pose proof (Z.mod_pos_bound raw (2 ^ 29) ltac:(lia)).
      change (Z.ones 29) with (2 ^ 29 - 1). lia.
    + change _FRAME_ID_MASK with (Z.ones 10).
      rewrite Z.land_ones by lia.
      pose proof (Z.mod_pos_bound raw (2 ^ 10) ltac:(lia)).
      change (Z.ones 10) with (2 ^ 10 - 1). lia.
  - apply int_from_raw.
Qed.

(** X2: two identifiers that [int] converts to the same raw value are the
    same identifier: same value and same extended flag. *)
Theorem CanIdentifier_int_injective (a b : CanIdentifier) (raw : Z) :
  CanIdentifier_int a = Ok raw ->
  CanIdentifier_int b = Ok raw ->
  a = b /\ CanIdentifier_eq a b = true.
Proof.
  intros Ha Hb.
  apply CanIdentifier_int_inv in Ha. apply CanIdentifier_int_inv in Hb.
  assert (a = b) as -> by congruence.
  split; [reflexivity|apply CanIdentifier_eq_refl].
Qed.

(** Two spellings of the extended identifier 5. *)
Lemma CanIdentifier_int_injective_witness :
  let a := mkCanIdentifier 5 true in
  let b := CanIdentifier_from_raw 0x20000005 in
  a = b /\ CanIdentifier_eq a b = true.
Proof.
  apply (CanIdentifier_int_injective
           (mkCanIdentifier 5 true) (CanIdentifier_from_raw 0x20000005)
           0x20000005);
    reflexivity.
Defined.

Section FrameFacts.

Lemma truthy_land_pow2 (a n : Z) :
  0 <= n -> truthy (Z.land a (2 ^ n)) = Z.testbit a n.
Proof.
  intros Hn. destruct (Z.testbit a n) eqn:Hbit.
  - apply truthy_true_iff. apply land_pow2_nonzero_iff; assumption.
  - apply truthy_false_iff.
    destruct (Z.eq_dec (Z.land a (2 ^ n)) 0) as [Hz|Hnz]; [exact Hz|].
    apply land_pow2_nonzero_iff in Hnz; [congruence|assumption].
Qed.

(** A [CanFrame] whose identifier fits converts to a raw frame that decodes
    to the same [CanFrame]. *)
Lemma CanFrame_to_raw_inv (f : CanFrame) (raw : RawFrame) :
  CanFrame_to_raw f = Ok raw ->
  CanFrame_from_raw raw = f
  /\ raw_timestamp raw = can_timestamp f
  /\ raw_type raw = can_type f
  /\ raw_flags raw = (if can_echo f then NX_FRAME_FLAGS_TRANSMIT_ECHO else 0)
  /\ raw_info raw = 0
  /\ raw_payload raw = can_payload f.
Proof.
  unfold CanFrame_to_raw.
  destruct (CanIdentifier_int (can_identifier f)) as [ident|e] eqn:Hint;
    cbn [bind]; [|discriminate].
  intros [= <-]. cbn [raw_timestamp raw_type raw_flags raw_info raw_payload].
  repeat split; try (destruct (can_echo f); reflexivity).
  unfold CanFrame_from_raw, CanFrame_init, FrameType_call.
  cbn [raw_identifier raw_type raw_payload raw_timestamp raw_flags
       can_identifier can_echo can_type can_timestamp can_payload].
  rewrite (CanIdentifier_int_inv _ _ Hint).
  destruct f as [ci echo ty ts pl]. cbn.
  destruct echo; reflexivity.
Qed.

Lemma CanFrame_to_raw_fits (f : CanFrame) :
  Z.land (identifier (can_identifier f))
         (id_mask (extended (can_identifier f)))
  = identifier (can_identifier f) ->
  exists raw, CanFrame_to_raw f = Ok raw.
Proof.
  intros Hfit. unfold CanFrame_to_raw.
  rewrite CanIdentifier_int_cases, Hfit, Z.eqb_refl. cbn [bind]. eauto.
Qed.

End FrameFacts.

(** X3: a [CanFrame] whose identifier fits the mask of its extended flag
    converts with [to_raw] to a raw frame that [CanFrame.from_raw] decodes to
    the very same frame (identifier, echo, type, timestamp and payload); the
    raw frame has [info] 0 and [flags] 0x80 for an echo and 0 otherwise. *)
Theorem CanFrame_to_raw_from_raw (f : CanFrame) :
  Z.land (identifier (can_identifier f))
         (id_mask (extended (can_identifier f)))
  = identifier (can_identifier f) ->
  exists raw,
    CanFrame_to_raw f = Ok raw
    /\ CanFrame_from_raw raw = f
    /\ raw_flags raw = (if can_echo f then 0x80 else 0)
    /\ raw_info raw = 0.
Proof.
  intros Hfit. destruct (CanFrame_to_raw_fits f Hfit) as [raw Hraw].
  exists raw. split; [exact Hraw|].
  destruct (CanFrame_to_raw_inv f raw Hraw) as (Hback & _ & _ & Hflags & Hinfo & _).
  auto.
Qed.

(** An echoed extended frame with a two-byte payload. *)
Lemma CanFrame_to_raw_from_raw_witness :
  let f := mkCanFrame (mkCanIdentifier 0x1ABCDEF true) true CANFD_DATA 42
                      [x0a; x0b] in
  exists raw,
    CanFrame_to_raw f = Ok raw
    /\ CanFrame_from_raw raw = f
    /\ raw_flags raw = 0x80
    /\ raw_info raw = 0.
Proof.
  apply (CanFrame_to_raw_from_raw
           (mkCanFrame (mkCanIdentifier 0x1ABCDEF true) true CANFD_DATA 42
                       [x0a; x0b])).
  reflexivity.
Defined.

(** X4: [CanFrame.from_raw] accepts every raw frame, and [to_raw] of the
    result never raises: it gives the raw frame back in a normal form that
    keeps the timestamp, the type and the payload, keeps of the identifier
    the low 30 bits (bit 29 set) or the low 10 bits (bit 29 clear), keeps of
    [flags] only the echo bit and sets [info] to 0.  The normal form decodes
    to the same [CanFrame], and it is the raw frame itself exactly when the
    raw frame already has that form. *)
Theorem CanFrame_from_raw_to_raw (raw : RawFrame) :
  let normal :=
    mkRawFrame (raw_timestamp raw)
               (if Z.testbit (raw_identifier raw) 29
                then Z.land (raw_identifier raw) 0x3FFFFFFF
                else Z.land (raw_identifier raw) 0x3FF)
               (raw_type raw)
               (if Z.testbit (raw_flags raw) 7 then 0x80 else 0)
               0
               (raw_payload raw) in
  CanFrame_to_raw (CanFrame_from_raw raw) = Ok normal
  /\ CanFrame_from_raw normal = CanFrame_from_raw raw
  /\ (CanFrame_to_raw (CanFrame_from_raw raw) = Ok raw <-> normal = raw).
Proof.
  intros normal.
  assert (Hto : CanFrame_to_raw (CanFrame_from_raw raw) = Ok normal).
  { unfold CanFrame_to_raw.
    cbn [CanFrame_from_raw CanFrame_init can_identifier can_echo can_type
         can_timestamp can_payload].
    rewrite int_from_raw. cbn [bind]. unfold FrameType_call.
    change NX_FRAME_FLAGS_TRANSMIT_ECHO with (2 ^ 7).
    rewrite truthy_land_pow2 by lia. subst normal.
    destruct (Z.testbit (raw_flags raw) 7); reflexivity. }
  split; [exact Hto|]. split.
  - apply (CanFrame_to_raw_inv _ _ Hto).
  - rewrite Hto. split; [intros [= H]; exact H|intros ->; reflexivity].
Qed.

(* ------------------------------------------------------------------ *)
(** ** Further properties of the bus error frame and of the dispatch *)

Section BytesFacts.

Lemma byte_of_int_inv (n : Z) (b : byte) :
  byte_of_int n = Ok b -> is_byte_value n /\ int_of_byte b = n.
Proof.
  unfold byte_of_int, is_byte_value.
  destruct (Z.ltb_spec n 0); [discriminate|].
  destruct (Z.ltb_spec 255 n); [discriminate|]. cbn [orb].
  destruct (Byte.of_N (Z.to_N n)) as [b'|] eqn:E; [|discriminate].
  intros [= <-]. split; [lia|].
  apply Byte.to_of_N in E. unfold int_of_byte. rewrite E.
  apply Z2N.id. lia.
Qed.

Lemma byte_of_int_raise (n : Z) (e : exn) :
  byte_of_int n = Raise e -> e = ValueError /\ ~ is_byte_value n.
Proof.
  unfold byte_of_int, is_byte_value.
  destruct ((n <? 0) || (255 <? n)) eqn:E.
  - intros [= <-]. split; [reflexivity|].
    apply orb_true_iff in E. rewrite !Z.ltb_lt in E. lia.
  - destruct (Byte.of_N (Z.to_N n)) eqn:Hb; [discriminate|].
    intros [= <-]. split; [reflexivity|].
    apply Byte.of_N_None_iff in Hb. lia.
Qed.

(** [bytes(ints)] returns the integers themselves, all of them bytes. *)
Lemma bytes_of_ints_inv (ints : list Z) (buf : bytes) :
  bytes_of_ints ints = Ok buf ->
  map int_of_byte buf = ints /\ Forall is_byte_value ints.
Proof.
  revert buf. induction ints as [|n rest IH]; intros buf.
  - intros [= <-]. split; [reflexivity|constructor].
  - cbn [bytes_of_ints].
    destruct (byte_of_int n) as [b|e] eqn:Hb; cbn [bind]; [|discriminate].
    destruct (bytes_of_ints rest) as [bs|e]; cbn [bind]; [|discriminate].
    intros [= <-]. destruct (IH bs eq_refl) as [Hmap Hall].
    destruct (byte_of_int_inv n b Hb) as [Hn Hint].
    cbn [map]. rewrite Hint, Hmap. split; [reflexivity|].
    constructor; assumption.
Qed.

(** [bytes(ints)] raises only [ValueError], and only for a value that is no
    byte. *)
Lemma bytes_of_ints_raise (ints : list Z) (e : exn) :
  bytes_of_ints ints = Raise e ->
  e = ValueError /\ Exists (fun n => ~ is_byte_value n) ints.
Proof.
  induction ints as [|n rest IH]; [discriminate|].
  cbn [bytes_of_ints].
  destruct (byte_of_int n) as [b|e'] eqn:Hb; cbn [bind].
  - destruct (bytes_of_ints rest) as [bs|e'']; cbn [bind]; [discriminate|].
    intros [= <-]. destruct (IH eq_refl) as [-> Hex].
    split; [reflexivity|]. apply Exists_cons_tl. exact Hex.
  - intros [= <-]. destruct (byte_of_int_raise n e' Hb) as [-> Hn].
    split; [reflexivity|]. apply Exists_cons_hd. exact Hn.
Qed.

Lemma bytes_of_ints_all (ints : list Z) :
  Forall is_byte_value ints -> exists buf, bytes_of_ints ints = Ok buf.
Proof.
  intros Hall. destruct (bytes_of_ints ints) as [buf|e] eqn:E; [eauto|].
  destruct (bytes_of_ints_raise ints e E) as [_ Hex].
  apply Exists_exists in Hex. destruct Hex as (n & Hin & Hn).
  rewrite Forall_forall in Hall. exfalso. exact (Hn (Hall n Hin)).
Qed.

End BytesFacts.

(** X5: [CanBusErrorFrame.to_raw] returns exactly when the state value, the
    bus error value and both counters are in [range(256)], and raises
    [ValueError] (nothing else) otherwise: a counter above 255 is an error,
    it is not truncated.  The raw frame it returns has the frame's
    timestamp, identifier 0, type [CAN_BUS_ERROR], flags 0, info 0 and the
    five-byte payload [[state, tcvr_err as 0/1, bus_err, tx, rx]]. *)
Theorem CanBusErrorFrame_to_raw_outcomes (f : CanBusErrorFrame) :
  let in_range :=
    is_byte_value (CanCommState_value (state f))
    /\ is_byte_value (CanLastErr_value (bus_err f))
    /\ is_byte_value (tx_err_count f)
    /\ is_byte_value (rx_err_count f) in
  (in_range <-> exists raw, CanBusErrorFrame_to_raw f = Ok raw)
  /\ (~ in_range <-> CanBusErrorFrame_to_raw f = Raise ValueError)
  /\ (forall e, CanBusErrorFrame_to_raw f = Raise e -> e = ValueError)
  /\ (forall raw,
        CanBusErrorFrame_to_raw f = Ok raw ->
        raw_timestamp raw = timestamp f
        /\ raw_identifier raw = 0
        /\ raw_type raw = CAN_BUS_ERROR
        /\ raw_flags raw = 0
        /\ raw_info raw = 0
        /\ map int_of_byte (raw_payload raw)
           = [ CanCommState_value (state f);
               if tcvr_err f then 1 else 0;
               CanLastErr_value (bus_err f);
               tx_err_count f;
               rx_err_count f ]).
Proof.
  intros in_range.
  set (ints := [ CanCommState_value (state f);
                 if tcvr_err f then 1 else 0;
                 CanLastErr_value (bus_err f);
                 tx_err_count f;
                 rx_err_count f ]).
  assert (Hdef : CanBusErrorFrame_to_raw f
                 = (payload <- bytes_of_ints ints ;;
                    Ok (mkRawFrame (timestamp f) 0 CAN_BUS_ERROR 0 0
                                   payload))) by reflexivity.
  assert (Hrange : in_range <-> Forall is_byte_value ints).
  { subst in_range ints. split.
    - intros (H0 & H2 & H3 & H4).
      repeat apply Forall_cons; try apply Forall_nil; try assumption.
      unfold is_byte_value. destruct (tcvr_err f); lia.
    - intros Hall.
      inversion Hall as [|? ? H0 Hall1]; subst.
      inversion Hall1 as [|? ? _ Hall2]; subst.
      inversion Hall2 as [|? ? H2 Hall3]; subst.
      inversion Hall3 as [|? ? H3 Hall4]; subst.
      inversion Hall4 as [|? ? H4 _]; subst. auto. }
  assert (Hok : in_range <-> exists raw, CanBusErrorFrame_to_raw f = Ok raw).
  { rewrite Hrange, Hdef. split.
    - intros Hall. destruct (bytes_of_ints_all ints Hall) as [buf Hbuf].
      rewrite Hbuf. cbn [bind]. eauto.
    - intros [raw Hraw].
      destruct (bytes_of_ints ints) as [buf|e] eqn:E; [|discriminate].
      apply (bytes_of_ints_inv ints buf E). }
  assert (Hexn : forall e, CanBusErrorFrame_to_raw f = Raise e ->
                           e = ValueError).
  { intros e. rewrite Hdef.
    destruct (bytes_of_ints ints) as [buf|e'] eqn:E; cbn [bind];
      [discriminate|].
    intros [= <-]. apply (bytes_of_ints_raise ints e' E). }
  split; [exact Hok|]. split; [|split; [exact Hexn|]].
  - split.
    + intros Hnot.
      destruct (CanBusErrorFrame_to_raw f) as [raw|e] eqn:E.
      * exfalso. apply Hnot. apply Hok. eauto.
      * rewrite (Hexn e eq_refl). reflexivity.
    + intros Hraise Hin. apply Hok in Hin. destruct Hin as [raw Hraw].
      congruence.
  - intros raw. rewrite Hdef.
    destruct (bytes_of_ints ints) as [buf|e] eqn:E; cbn [bind];
      [|discriminate].
    intros [= <-]. cbn. repeat split.
    apply (bytes_of_ints_inv ints buf E).
Qed.

Section BusErrorDecode.

Variable is_CanCommState : Z -> bool.
Variable is_CanLastErr : Z -> bool.

Local Abbreviation bus_from_raw :=
  (CanBusErrorFrame_from_raw is_CanCommState is_CanLastErr).

(** A payload shorter than five bytes never decodes. *)
Lemma bus_from_raw_short (frame : RawFrame) :
  (List.length (raw_payload frame) < 5)%nat ->
  exists e, bus_from_raw frame = Raise e.
Proof.
  intros Hlen. unfold CanBusErrorFrame_from_raw, indexbytes,
    CanCommState_call, CanLastErr_call.
  destruct (raw_payload frame) as [|b0 [|b1 [|b2 [|b3 [|b4 rest]]]]];
    cbn [nth_error bind List.length] in *; try lia;
    repeat (match goal with
            | |- context [is_CanCommState ?v] =>
                destruct (is_CanCommState v)
            | |- context [is_CanLastErr ?v] => destruct (is_CanLastErr v)
            end; cbn [bind]);
    eauto.
Qed.

(** Decoding raises nothing but [IndexError] and [ValueError]. *)
Lemma bus_from_raw_exn (frame : RawFrame) (e : exn) :
  bus_from_raw frame = Raise e -> e = IndexError \/ e = ValueError.
Proof.
  unfold CanBusErrorFrame_from_raw, indexbytes, CanCommState_call,
    CanLastErr_call.
  repeat (match goal with
          | |- context [nth_error ?l ?n] => destruct (nth_error l n)
          | |- context [is_CanCommState ?v] => destruct (is_CanCommState v)
          | |- context [is_CanLastErr ?v] => destruct (is_CanLastErr v)
          end; cbn [bind]);
    intros [= <-]; auto.
Qed.

(** What a returned frame says about the payload. *)
Lemma bus_from_raw_ok (frame : RawFrame) (f : CanBusErrorFrame) :
  bus_from_raw frame = Ok f ->
  exists b0 b1 b2 b3 b4 rest,
    raw_payload frame = b0 :: b1 :: b2 :: b3 :: b4 :: rest
    /\ is_CanCommState (int_of_byte b0) = true
    /\ is_CanLastErr (int_of_byte b1) = true
    /\ f = mkCanBusErrorFrame
             (raw_timestamp frame) (mkCanCommState (int_of_byte b0))
             (negb (int_of_byte b1 =? 0)) (mkCanLastErr (int_of_byte b1))
             (int_of_byte b3) (int_of_byte b4).
Proof.
  intros Hok.
  destruct (le_lt_dec 5 (List.length (raw_payload frame))) as [Hlen|Hlen].
  - destruct frame as [ts id ty fl inf payload].
    cbn [raw_payload raw_timestamp] in *.
    destruct payload as [|b0 [|b1 [|b2 [|b3 [|b4 rest]]]]];
      cbn [List.length] in Hlen; try lia.
    rewrite CanBusErrorFrame_from_raw_bytes in Hok.
    unfold CanCommState_call, CanLastErr_call in Hok.
    destruct (is_CanCommState (int_of_byte b0)) eqn:H0; cbn [bind] in Hok;
      [|discriminate].
    destruct (is_CanLastErr (int_of_byte b1)) eqn:H1; cbn [bind] in Hok;
      [|discriminate].
    injection Hok as <-. exists b0, b1, b2, b3, b4, rest. auto.
  - destruct (bus_from_raw_short frame Hlen) as [e He]. congruence.
Qed.

End BusErrorDecode.

(** X6: [CanBusErrorFrame.from_raw] returns a frame exactly when the payload
    has at least five bytes, byte 0 is a value of [CanCommState] and byte 1
    a value of [CanLastErr]; the frame is then built from bytes 0, 1, 3 and 4
    and the timestamp alone (bytes from offset 5 on are ignored).  A payload
    of fewer than five bytes always raises, and the only exceptions are
    [IndexError] and [ValueError]. *)
Theorem CanBusErrorFrame_from_raw_outcomes
    (is_CanCommState is_CanLastErr : Z -> bool) (frame : RawFrame) :
  let from_raw := CanBusErrorFrame_from_raw is_CanCommState is_CanLastErr in
  (forall f,
     from_raw frame = Ok f <->
     exists b0 b1 b2 b3 b4 rest,
       raw_payload frame = b0 :: b1 :: b2 :: b3 :: b4 :: rest
       /\ is_CanCommState (int_of_byte b0) = true
       /\ is_CanLastErr (int_of_byte b1) = true
       /\ f = mkCanBusErrorFrame
                (raw_timestamp frame) (mkCanCommState (int_of_byte b0))
                (negb (int_of_byte b1 =? 0)) (mkCanLastErr (int_of_byte b1))
                (int_of_byte b3) (int_of_byte b4))
  /\ ((List.length (raw_payload frame) < 5)%nat ->
      exists e, from_raw frame = Raise e)
  /\ (forall e, from_raw frame = Raise e -> e = IndexError \/ e = ValueError)
  /\ (raw_payload frame = [] -> from_raw frame = Raise IndexError).
Proof.
  intros from_raw. subst from_raw. split; [|split; [|split]].
  - intros f. split; [apply bus_from_raw_ok|].
    intros (b0 & b1 & b2 & b3 & b4 & rest & Hpayload & H0 & H1 & ->).
    destruct frame as [ts id ty fl inf payload].
    cbn [raw_payload raw_timestamp] in *. subst payload.
    rewrite CanBusErrorFrame_from_raw_bytes.
    unfold CanCommState_call, CanLastErr_call. rewrite H0, H1. reflexivity.
  - apply bus_from_raw_short.
  - apply bus_from_raw_exn.
  - intros Hempty. unfold CanBusErrorFrame_from_raw. rewrite Hempty.
    reflexivity.
Qed.

Section DispatchFacts.

Variable is_CanCommState : Z -> bool.
Variable is_CanLastErr : Z -> bool.

(** The class the table gives decides the type of the decoded frame. *)
Lemma class_from_raw_type (frame : RawFrame) (cls : FrameClass) (f : Frame) :
  dict_get frame_type_table (raw_type frame) = Some cls ->
  class_from_raw is_CanCommState is_CanLastErr cls frame = Ok f ->
  Frame_type f = raw_type frame.
Proof.
  intros Hcls Hf.
  destruct (raw_type frame) eqn:Hty; cbn in Hcls;
    try discriminate Hcls; injection Hcls as <-;
    cbn [class_from_raw] in Hf.
  1-5: injection Hf as <-; cbn [Frame_type CanFrame_from_raw can_type
                                CanFrame_init FrameType_call];
       exact Hty.
  - destruct (CanBusErrorFrame_from_raw _ _ frame) as [b|e];
      cbn [bind] in Hf; [|discriminate].
    injection Hf as <-. reflexivity.
  - injection Hf as <-. reflexivity.
  - injection Hf as <-. reflexivity.
  - injection Hf as <-. reflexivity.
Qed.

(** Only the bus error class can refuse a raw frame. *)
Lemma class_from_raw_total (frame : RawFrame) (cls : FrameClass) :
  cls <> CanBusErrorFrame_cls ->
  exists f, class_from_raw is_CanCommState is_CanLastErr cls frame = Ok f.
Proof.
  intros Hcls. destruct cls; cbn [class_from_raw]; eauto. congruence.
Qed.

Lemma dict_get_bus_error (t : FrameType) :
  dict_get frame_type_table t = Some CanBusErrorFrame_cls <->
  t = CAN_BUS_ERROR.
Proof.
  split; [|intros ->; reflexivity].
  destruct t; cbn; intros H; try discriminate H; reflexivity.
Qed.

End DispatchFacts.

(** X7: [XnetFrame.from_raw] returns a frame exactly when the type is one
    of the nine tags of the table and, for the [CAN_BUS_ERROR] tag, the bus
    error decoder accepts the payload.  For the other eight tags it never
    raises, whatever the identifier, the flags, the info and the payload
    (empty or over-long) are.  A returned frame has the type of the raw
    frame. *)
Theorem XnetFrame_from_raw_succeeds_iff
    (is_CanCommState is_CanLastErr : Z -> bool) (frame : RawFrame) :
  let from_raw := XnetFrame_from_raw is_CanCommState is_CanLastErr in
  let bus_from_raw :=
    CanBusErrorFrame_from_raw is_CanCommState is_CanLastErr in
  ((exists f, from_raw frame = Ok f) <->
   In (raw_type frame) dispatch_tags
   /\ (raw_type frame = CAN_BUS_ERROR ->
       exists b, bus_from_raw frame = Ok b))
  /\ (In (raw_type frame) dispatch_tags ->
      raw_type frame <> CAN_BUS_ERROR ->
      exists f, from_raw frame = Ok f)
  /\ (forall f, from_raw frame = Ok f -> Frame_type f = raw_type frame).
Proof.
  intros from_raw bus_from_raw. subst from_raw bus_from_raw.
  assert (Hother : In (raw_type frame) dispatch_tags ->
                   raw_type frame <> CAN_BUS_ERROR ->
                   exists f, XnetFrame_from_raw is_CanCommState
                               is_CanLastErr frame = Ok f).
  { intros Hin Hne. destruct (dict_get_hit _ Hin) as [cls Hcls].
    unfold XnetFrame_from_raw. rewrite Hcls.
    apply class_from_raw_total. intros ->.
    apply dict_get_bus_error in Hcls. contradiction. }
  split; [|split; [exact Hother|]].
  - split.
    + intros [f Hf]. unfold XnetFrame_from_raw in Hf.
      destruct (dict_get frame_type_table (raw_type frame)) as [cls|]
        eqn:Hcls; [|discriminate].
      split.
      * destruct (in_dec FrameType_eq_dec (raw_type frame) dispatch_tags)
          as [Hin|Hnot]; [exact Hin|].
        rewrite (dict_get_miss _ Hnot) in Hcls. discriminate.
      * intros Hty. rewrite Hty in Hcls. cbn in Hcls.
        injection Hcls as <-. cbn [class_from_raw] in Hf.
        destruct (CanBusErrorFrame_from_raw _ _ frame) as [b|e];
          [eauto|discriminate].
    + intros [Hin Hbus].
      destruct (FrameType_eq_dec (raw_type frame) CAN_BUS_ERROR)
        as [Hty|Hty]; [|exact (Hother Hin Hty)].
      destruct (Hbus Hty) as [b Hb].
      unfold XnetFrame_from_raw. rewrite Hty.
      cbn [dict_get frame_type_table]. cbn -[CanBusErrorFrame_from_raw].
      rewrite Hb. cbn [bind]. eauto.
  - intros f Hf. unfold XnetFrame_from_raw in Hf.
    destruct (dict_get frame_type_table (raw_type frame)) as [cls|]
      eqn:Hcls; [|discriminate].
    exact (class_from_raw_type _ _ frame cls f Hcls Hf).
Qed.

Section DispatchRoundTrip.

Variable is_CanCommState : Z -> bool.
Variable is_CanLastErr : Z -> bool.

(** The bus error frame a raw frame of [to_raw] decodes to. *)
Lemma bus_to_raw_from_raw (b : CanBusErrorFrame) (raw : RawFrame) :
  CanBusErrorFrame_to_raw b = Ok raw ->
  raw_type raw = CAN_BUS_ERROR
  /\ CanBusErrorFrame_from_raw is_CanCommState is_CanLastErr raw
     = (st <- CanCommState_call is_CanCommState
                (CanCommState_value (state b)) ;;
        err <- CanLastErr_call is_CanLastErr
                 (if tcvr_err b then 1 else 0) ;;
        Ok (mkCanBusErrorFrame (timestamp b) st (tcvr_err b) err
                               (tx_err_count b) (rx_err_count b))).
Proof.
  unfold CanBusErrorFrame_to_raw.
  destruct (bytes_of_ints _) as [payload|e] eqn:E; cbn [bind];
    [|discriminate].
  intros [= <-]. split; [reflexivity|].
  destruct (bytes_of_ints_inv _ _ E) as [Hints _].
  destruct payload as [|b0 [|b1 [|b2 [|b3 [|b4 [|? ?]]]]]];
    try discriminate Hints.
  cbn [map] in Hints. injection Hints as H0 H1 H2 H3 H4.
  rewrite CanBusErrorFrame_from_raw_bytes, H0, H1, H3, H4.
  destruct (CanCommState_call _ _); cbn [bind]; [|reflexivity].
  destruct (CanLastErr_call _ _); cbn [bind]; [|reflexivity].
  destruct (tcvr_err b); reflexivity.
Qed.

End DispatchRoundTrip.

(** X8: what comes back when a typed frame is converted with its [to_raw]
    and the raw frame is decoded by [XnetFrame.from_raw].  Every delay, log
    trigger and start trigger frame comes back unchanged; a [CanFrame] comes
    back unchanged when its type is one of the five CAN tags (its identifier
    fits, or [to_raw] would have raised), and never comes back as itself
    when its type is any other tag, [CanFrame(...)] accepting any type; a bus
    error frame with member values comes back unchanged when the value of
    its [bus_err] is 1 with [tcvr_err] set and 0 without, and never
    otherwise. *)
Theorem Frame_to_raw_dispatch_roundtrip
    (is_CanCommState is_CanLastErr : Z -> bool) :
  let from_raw := XnetFrame_from_raw is_CanCommState is_CanLastErr in
  (forall (f : Frame) (raw : RawFrame),
     Frame_to_raw f = Ok raw ->
     match f with
     | Frame_Can c => In (can_type c) can_tags
     | Frame_CanBusError b =>
         is_CanCommState (CanCommState_value (state b)) = true
         /\ is_CanLastErr (CanLastErr_value (bus_err b)) = true
         /\ CanLastErr_value (bus_err b) = (if tcvr_err b then 1 else 0)
     | _ => True
     end ->
     from_raw raw = Ok f)
  /\ (forall (c : CanFrame) (raw : RawFrame),
        CanFrame_to_raw c = Ok raw ->
        ~ In (can_type c) can_tags ->
        from_raw raw <> Ok (Frame_Can c))
  /\ (forall (b : CanBusErrorFrame) (raw : RawFrame),
        CanBusErrorFrame_to_raw b = Ok raw ->
        CanLastErr_value (bus_err b) <> (if tcvr_err b then 1 else 0) ->
        from_raw raw <> Ok (Frame_CanBusError b)).
Proof.
  intros from_raw. subst from_raw. split; [|split].
  - intros [c|b|d|l|s] raw Hraw Hpre; cbn [Frame_to_raw] in Hraw.
    + destruct (CanFrame_to_raw_inv c raw Hraw) as (Hback & _ & Hty & _).
      unfold XnetFrame_from_raw. rewrite Hty.
      cbn in Hpre.
      destruct Hpre as [H|[H|[H|[H|[H|[]]]]]]; rewrite <- H;
        cbn [dict_get frame_type_table]; cbn -[CanFrame_from_raw];
        rewrite Hback; reflexivity.
    + destruct Hpre as (Hstate & Herr & Hval).
      destruct (bus_to_raw_from_raw is_CanCommState is_CanLastErr b raw Hraw)
        as [Hty Hdec].
      unfold XnetFrame_from_raw. rewrite Hty.
      cbn [dict_get frame_type_table]. cbn -[CanBusErrorFrame_from_raw].
      rewrite Hdec. unfold CanCommState_call, CanLastErr_call.
      rewrite <- Hval, Hstate, Herr. cbn [bind].
      destruct b as [ts [sv] tc [ev] tx rx]. reflexivity.
    + injection Hraw as <-. destruct d. reflexivity.
    + injection Hraw as <-. destruct l. reflexivity.
    + injection Hraw as <-. destruct s. reflexivity.
  - intros c raw Hraw Hnot Hdec.
    destruct (CanFrame_to_raw_inv c raw Hraw) as (_ & _ & Hty & _).
    unfold XnetFrame_from_raw in Hdec. rewrite Hty in Hdec.
    destruct (can_type c) eqn:Hc; cbn in Hnot;
      try (exfalso; apply Hnot; tauto);
      cbn [dict_get frame_type_table] in Hdec;
      cbn -[CanBusErrorFrame_from_raw] in Hdec;
      try discriminate Hdec.
    destruct (CanBusErrorFrame_from_raw _ _ raw); discriminate Hdec.
  - intros b raw Hraw Hval Hdec.
    destruct (bus_to_raw_from_raw is_CanCommState is_CanLastErr b raw Hraw)
      as [Hty Hback].
    unfold XnetFrame_from_raw in Hdec. rewrite Hty in Hdec.
    cbn [dict_get frame_type_table] in Hdec.
    cbn -[CanBusErrorFrame_from_raw] in Hdec.
    rewrite Hback in Hdec. unfold CanCommState_call, CanLastErr_call in Hdec.
    destruct (is_CanCommState _); cbn [bind] in Hdec; [|discriminate].
    destruct (is_CanLastErr _); cbn [bind] in Hdec; [|discriminate].
    injection Hdec as Hdec. apply Hval.
    rewrite <- Hdec at 1. reflexivity.
Qed.

(* ------------------------------------------------------------------ *)
(** ** Further properties of the collections *)

Section NameLookupFacts.

Lemma list_contains_In (names : list string) (x : string) :
  list_contains names x = true <-> In x names.
Proof.
  unfold list_contains. rewrite existsb_exists. split.
  - intros (y & Hin & Heq). apply String.eqb_eq in Heq. congruence.
  - intros Hin. exists x. split; [exact Hin|apply String.eqb_refl].
Qed.

(** [index] returns the first position that holds the name. *)
Lemma list_index_ok (names : list string) (x : string) (i : Z) :
  list_index names x = Ok i ->
  0 <= i < Z.of_nat (List.length names)
  /\ nth_error names (Z.to_nat i) = Some x
  /\ (forall j, (j < Z.to_nat i)%nat -> nth_error names j <> Some x).
Proof.
  revert i. induction names as [|y rest IH]; intros i; [discriminate|].
  cbn [list_index].
  destruct (String.eqb_spec y x) as [->|Hne].
  - intros [= <-]. cbn [List.length]. split; [lia|].
    split; [reflexivity|]. intros j Hj. cbn in Hj. lia.
  - destruct (list_index rest x) as [k|e]; cbn [bind]; [|discriminate].
    intros [= <-]. destruct (IH k eq_refl) as (Hk & Hnth & Hfirst).
    cbn [List.length]. split; [lia|].
    replace (Z.to_nat (k + 1)) with (S (Z.to_nat k)) by lia.
    split; [exact Hnth|].
    intros [|j] Hj; cbn [nth_error]; [congruence|].
    apply Hfirst. lia.
Qed.

Lemma list_index_raise (names : list string) (x : string) (e : exn) :
  list_index names x = Raise e -> e = ValueError /\ ~ In x names.
Proof.
  induction names as [|y rest IH]; cbn [list_index].
  - intros [= <-]. split; [reflexivity|]. intros [].
  - destruct (String.eqb_spec y x) as [->|Hne]; [discriminate|].
    destruct (list_index rest x) as [k|e']; cbn [bind]; [discriminate|].
    intros [= <-]. destruct (IH eq_refl) as [-> Hnot].
    split; [reflexivity|]. intros [Heq|Hin]; [congruence|auto].
Qed.

Lemma list_index_In (names : list string) (x : string) :
  In x names -> exists i, list_index names x = Ok i.
Proof.
  intros Hin. destruct (list_index names x) as [i|e] eqn:E; [eauto|].
  destruct (list_index_raise names x e E) as [_ Hnot]. contradiction.
Qed.

Lemma list_index_not_In (names : list string) (x : string) :
  ~ In x names -> list_index names x = Raise ValueError.
Proof.
  intros Hnot. destruct (list_index names x) as [i|e] eqn:E.
  - destruct (list_index_ok names x i E) as (_ & Hnth & _).
    apply nth_error_In in Hnth. contradiction.
  - destruct (list_index_raise names x e E) as [-> _]. reflexivity.
Qed.

(** Indexing with a position of the list. *)
Lemma list_getitem_position {A : Type} (seq : list A) (i : Z) (x : A) :
  0 <= i ->
  nth_error seq (Z.to_nat i) = Some x ->
  list_getitem seq i = Ok x.
Proof.
  intros Hi Hnth.
  assert (Hlen : (Z.to_nat i < List.length seq)%nat)
    by (apply nth_error_Some; congruence).
  destruct (list_getitem_in_range seq i) as (y & Hy & Hget); [lia|].
  destruct (Z.ltb_spec i 0); [lia|]. congruence.
Qed.

End NameLookupFacts.

(** X9: for a name that is in the cached list, [name in self] is true and
    [self[name]] returns the item with the collection's handle, that name,
    and as index the first position holding the name (with duplicate names
    the later ones cannot be reached by name); [self[index]] with that index
    returns the very same item, [index in self] is true, and
    [self.get(name, default)] returns the item, not the default. *)
Theorem Collection_lookup_present_name
    (get_session_list : Z -> list string) (self : Collection)
    (name : string) (D : Type) (default : D) :
  let names := fst (_list_cache get_session_list self) in
  let self' := snd (_list_cache get_session_list self) in
  In name names ->
  exists i : Z,
    let it := mkItem (_handle self) i name in
    0 <= i < Z.of_nat (List.length names)
    /\ nth_error names (Z.to_nat i) = Some name
    /\ (forall j, (j < Z.to_nat i)%nat -> nth_error names j <> Some name)
    /\ Collection_contains get_session_list self (KeyStr name)
       = (Ok true, self')
    /\ Collection_getitem get_session_list self (KeyStr name)
       = (Ok it, self')
    /\ Collection_get get_session_list self (KeyStr name) default
       = (Ok (inl it), self')
    /\ Collection_getitem get_session_list self (KeyInt i) = (Ok it, self')
    /\ Collection_contains get_session_list self (KeyInt i)
       = (Ok true, self')
    /\ Item_int it = i /\ Item_str it = name.
Proof.
  intros names self' Hin.
  destruct (list_cache_spec get_session_list self) as [Hhandle _].
  fold self' in Hhandle.
  destruct (list_index_In names name Hin) as [i Hi].
  destruct (list_index_ok names name i Hi) as (Hrange & Hnth & Hfirst).
  exists i. cbv zeta.
  split; [exact Hrange|]. split; [exact Hnth|]. split; [exact Hfirst|].
  unfold Collection_contains, Collection_getitem, Collection_get.
  rewrite (list_cache_pair get_session_list self).
  fold names. fold self'.
  rewrite Hi, Hhandle, (list_getitem_position names i name) by
    (first [lia|exact Hnth]).
  apply list_contains_In in Hin. rewrite Hin.
  destruct (Z.leb_spec 0 i); [|lia].
  destruct (Z.ltb_spec i (Z.of_nat (List.length names))); [|lia].
  unfold _create_item. repeat split; reflexivity.
Qed.

(** The name [b] in the names [a], [b], [c], [b]: found at position 1. *)
Lemma Collection_lookup_present_name_witness :
  let lst := fun _ : Z => ["a"; "b"; "c"; "b"]%string in
  let self := Collection_init 7 in
  exists i : Z,
    Collection_getitem lst self (KeyStr "b")
    = (Ok (mkItem 7 i "b"),
       mkCollection 7 (Some ["a"; "b"; "c"; "b"]%string))
    /\ i = 1.
Proof.
  destruct (Collection_lookup_present_name
              (fun _ : Z => ["a"; "b"; "c"; "b"]%string)
              (Collection_init 7) "b" Z 0)
    as (i & Hrange & Hnth & Hfirst & _ & Hget & _).
  { cbn. tauto. }
  exists i. split; [exact Hget|].
  cbn in Hrange, Hfirst.
  assert (Hi : i = 0 \/ i = 1 \/ i = 2 \/ i = 3) by lia.
  destruct Hi as [ -> | [ -> | [ -> | -> ] ] ]; cbn in Hnth; try discriminate Hnth.
  - reflexivity.
  - exfalso. apply (Hfirst 1%nat); [lia|reflexivity].
Defined.

(** X10: for a name that is not in the cached list, [name in self] is
    false, [self[name]] raises [KeyError(name)] and
    [self.get(name, default)] returns the default; the collection is left
    with its cache filled and is otherwise unchanged. *)
Theorem Collection_lookup_missing_name
    (get_session_list : Z -> list string) (self : Collection)
    (name : string) (D : Type) (default : D) :
  let names := fst (_list_cache get_session_list self) in
  let self' := snd (_list_cache get_session_list self) in
  ~ In name names ->
  Collection_contains get_session_list self (KeyStr name)
  = (Ok false, self')
  /\ Collection_getitem get_session_list self (KeyStr name)
     = (Raise (KeyError name), self')
  /\ Collection_get get_session_list self (KeyStr name) default
     = (Ok (inr default), self')
  /\ _handle self' = _handle self
  /\ __list_cache self' = Some names.
Proof.
  intros names self' Hnot.
  destruct (list_cache_spec get_session_list self) as [Hhandle Hcache].
  fold self' in Hhandle, Hcache. fold names in Hcache.
  unfold Collection_contains, Collection_getitem, Collection_get.
  rewrite (list_cache_pair get_session_list self).
  fold names. fold self'.
  rewrite (list_index_not_In names name Hnot).
  assert (Hc : list_contains names name = false).
  { destruct (list_contains names name) eqn:E; [|reflexivity].
    apply list_contains_In in E. contradiction. }
  rewrite Hc. auto.
Qed.

(** The name [z] in an empty collection. *)
Lemma Collection_lookup_missing_name_witness :
  let lst := fun _ : Z => @nil string in
  let self := Collection_init 7 in
  let self' := mkCollection 7 (Some []) in
  Collection_contains lst self (KeyStr "z") = (Ok false, self')
  /\ Collection_getitem lst self (KeyStr "z") = (Raise (KeyError "z"), self')
  /\ Collection_get lst self (KeyStr "z") 0 = (Ok (inr 0), self')
  /\ _handle self' = 7
  /\ __list_cache self' = Some [].
Proof.
  apply (Collection_lookup_missing_name (fun _ : Z => @nil string)
                                        (Collection_init 7) "z" Z 0).
  cbn. tauto.
Defined.

(** X11: for a non-negative integer [i] and a cached list of length [n]:
    [i in self] is true exactly when [i < n]; for [i < n], [self[i]] and
    [self.get(i, default)] return the item with the collection's handle,
    index [i] and the name at position [i]; for [i >= n], [self[i]] raises
    [IndexError] and [self.get(i, default)] returns the default. *)
Theorem Collection_lookup_position
    (get_session_list : Z -> list string) (self : Collection)
    (D : Type) (default : D) (i : Z) :
  0 <= i ->
  let names := fst (_list_cache get_session_list self) in
  let self' := snd (_list_cache get_session_list self) in
  let n := Z.of_nat (List.length names) in
  Collection_contains get_session_list self (KeyInt i)
  = (Ok (i <? n), self')
  /\ (i < n ->
      exists name,
        nth_error names (Z.to_nat i) = Some name
        /\ Collection_getitem get_session_list self (KeyInt i)
           = (Ok (mkItem (_handle self) i name), self')
        /\ Collection_get get_session_list self (KeyInt i) default
           = (Ok (inl (mkItem (_handle self) i name)), self'))
  /\ (n <= i ->
      Collection_getitem get_session_list self (KeyInt i)
      = (Raise IndexError, self')
      /\ Collection_get get_session_list self (KeyInt i) default
         = (Ok (inr default), self')).
Proof.
  intros Hi names self' n.
  destruct (list_cache_spec get_session_list self) as [Hhandle _].
  fold self' in Hhandle.
  unfold Collection_contains, Collection_getitem, Collection_get.
  rewrite (list_cache_pair get_session_list self).
  fold names. fold self'. fold n.
  destruct (Z.leb_spec 0 i); [|lia].
  split; [reflexivity|]. split.
  - intros Hlt.
    destruct (nth_error names (Z.to_nat i)) as [name|] eqn:Hnth.
    + exists name. split; [reflexivity|].
      rewrite (list_getitem_position names i name Hi Hnth), Hhandle.
      split; reflexivity.
    + apply nth_error_None in Hnth. subst n. lia.
  - intros Hge.
    rewrite (list_getitem_out_of_range names i) by (right; exact Hge).
    split; reflexivity.
Qed.

(** Index 3 on the three names [a], [b], [c]: one past the end. *)
Lemma Collection_lookup_position_witness :
  let lst := fun _ : Z => ["a"; "b"; "c"]%string in
  let self := Collection_init 7 in
  let self' := mkCollection 7 (Some ["a"; "b"; "c"]%string) in
  Collection_contains lst self (KeyInt 3) = (Ok false, self')
  /\ Collection_getitem lst self (KeyInt 3) = (Raise IndexError, self')
  /\ Collection_get lst self (KeyInt 3) 0 = (Ok (inr 0), self').
Proof.
  destruct (Collection_lookup_position
              (fun _ : Z => ["a"; "b"; "c"]%string) (Collection_init 7)
              Z 0 3)
    as (Hcontains & _ & Hout); [lia|].
  destruct Hout as [Hgetitem Hget]; [cbn; lia|].
  split; [exact Hcontains|]. split; [exact Hgetitem|exact Hget].
Defined.

(** X12: [self.get(key, default)] follows [self[key]]: it returns the item
    when [self[key]] returns one, returns the default when [self[key]]
    raises [IndexError] or [KeyError], and raises [TypeError] for a key that
    is neither an integer nor a string; it raises nothing else, and it
    leaves the collection in the state [self[key]] leaves it in. *)
Theorem Collection_get_follows_getitem
    (get_session_list : Z -> list string) (self : Collection) (index : key)
    (D : Type) (default : D) :
  Collection_get get_session_list self index default
  = match Collection_getitem get_session_list self index with
    | (Ok it, self') => (Ok (inl it), self')
    | (Raise IndexError, self') => (Ok (inr default), self')
    | (Raise (KeyError _), self') => (Ok (inr default), self')
    | (Raise e, self') => (Raise e, self')
    end
  /\ (forall e self',
        Collection_get get_session_list self index default
        = (Raise e, self') ->
        e = TypeError /\ index = KeyOther /\ self' = self).
Proof.
  assert (Hget : forall (seq : list string) (i : Z) (e : exn),
             list_getitem seq i = Raise e -> e = IndexError).
  { intros seq i e. unfold list_getitem.
    destruct (_ || _); [intros [= <-]; reflexivity|].
    destruct (nth_error _ _); [discriminate|intros [= <-]; reflexivity]. }
  unfold Collection_get, Collection_getitem.
  destruct index as [i|name|].
  - rewrite (list_cache_pair get_session_list self).
    destruct (list_getitem _ i) as [x|e] eqn:E.
    + split; [reflexivity|]. intros e self' [=].
    + rewrite (Hget _ _ _ E). split; [reflexivity|]. intros e' self' [=].
  - rewrite (list_cache_pair get_session_list self).
    destruct (list_index _ name) as [i|e] eqn:E.
    + split; [reflexivity|]. intros e self' [=].
    + destruct (list_index_raise _ _ _ E) as [-> _].
      split; [reflexivity|]. intros e' self' [=].
  - split; [reflexivity|]. intros e self' [= <- <-]. auto.
Qed.

Section IterationFacts.

Variable get_session_num_in_list : Z -> Z.
Variable get_session_list : Z -> list string.

(** A filled cache is returned as it is, whatever the driver would list. *)
Lemma list_cache_filled (self : Collection) (names : list string) :
  __list_cache self = Some names ->
  _list_cache get_session_list self = (names, self).
Proof. intros Hc. unfold _list_cache. rewrite Hc. reflexivity. Qed.

Lemma items_from_names (handle : Z) (start : nat) (names : list string) :
  map Item_str (items_from handle start names) = names.
Proof.
  revert start. induction names as [|name rest IH]; intros start;
    [reflexivity|].
  cbn [items_from map]. rewrite IH. reflexivity.
Qed.

Lemma items_from_indices (handle : Z) (start : nat) (names : list string) :
  map Item_int (items_from handle start names)
  = map Z.of_nat (seq start (List.length names)).
Proof.
  revert start. induction names as [|name rest IH]; intros start;
    [reflexivity|].
  cbn [items_from map List.length seq]. rewrite IH. reflexivity.
Qed.

(** Every item of the enumeration sits at its own index. *)
Lemma items_from_In (handle : Z) (start : nat) (names : list string)
    (it : Item) :
  In it (items_from handle start names) ->
  exists k : nat,
    nth_error names k = Some (item_name it)
    /\ it = mkItem handle (Z.of_nat (start + k)) (item_name it).
Proof.
  revert start. induction names as [|name rest IH]; intros start;
    [intros []|].
  cbn [items_from]. intros [<-|Hin].
  - exists 0%nat. rewrite Nat.add_0_r. split; reflexivity.
  - destruct (IH (S start) Hin) as (k & Hnth & Hit).
    exists (S k). split; [exact Hnth|].
    rewrite Nat.add_succ_r. exact Hit.
Qed.

End IterationFacts.

(** X13: when the driver's item count agrees with the cached name list,
    iterating the collection to the end yields one item per cached name and
    then stops: the names of the items are the cached list, in order, their
    indices are [0, 1, ..., n-1], every item carries the collection's
    handle, and [self[int(item)]] returns each yielded item.  Iterating
    again yields the same items. *)
Theorem Collection_iter_agrees_with_lookup
    (get_session_num_in_list : Z -> Z) (get_session_list : Z -> list string)
    (self : Collection) (fuel : nat) :
  let names := fst (_list_cache get_session_list self) in
  let self' := snd (_list_cache get_session_list self) in
  get_session_num_in_list (_handle self) = Z.of_nat (List.length names) ->
  (List.length names < fuel)%nat ->
  exists items : list Item,
    drain get_session_num_in_list get_session_list fuel self GenCreated
    = (items, Some StopIteration, self')
    /\ map Item_str items = names
    /\ map Item_int items = map Z.of_nat (seq 0 (List.length names))
    /\ (forall it, In it items ->
          item_handle it = _handle self
          /\ Collection_getitem get_session_list self'
               (KeyInt (Item_int it))
             = (Ok it, self'))
    /\ drain get_session_num_in_list get_session_list fuel self' GenCreated
       = (items, Some StopIteration, self').
Proof.
  intros names self' Hcount Hfuel.
  destruct (list_cache_spec get_session_list self) as [Hhandle Hcache].
  fold self' in Hhandle, Hcache. fold names in Hcache.
  pose proof (list_cache_filled get_session_list self' names Hcache)
    as Hfilled.
  exists (items_from (_handle self) 0 names).
  split; [|split; [|split; [|split]]].
  - apply Collection_iter_yields_all; assumption.
  - apply items_from_names.
  - apply items_from_indices.
  - intros it Hin.
    destruct (items_from_In _ _ _ it Hin) as (k & Hnth & Hit).
    cbn [Nat.add] in Hit. destruct it as [h idx name].
    cbn [item_name item_handle] in *. injection Hit as -> ->.
    split; [reflexivity|].
    unfold Collection_getitem, Item_int. rewrite Hfilled. cbn [item_index].
    rewrite (list_getitem_position names (Z.of_nat k) name)
      by (first [lia | rewrite Nat2Z.id; exact Hnth]).
    unfold _create_item. rewrite Hhandle. reflexivity.
  - pose proof (Collection_iter_yields_all get_session_num_in_list
                  get_session_list self' fuel) as Hagain.
    rewrite Hfilled in Hagain. cbn [fst snd] in Hagain.
    rewrite Hhandle in Hagain. apply Hagain; assumption.
Qed.

(** Three names and a driver that counts three. *)
Lemma Collection_iter_agrees_with_lookup_witness :
  let num := fun _ : Z => 3 in
  let lst := fun _ : Z => ["a"; "b"; "c"]%string in
  let self' := mkCollection 7 (Some ["a"; "b"; "c"]%string) in
  exists items : list Item,
    drain num lst 4 (Collection_init 7) GenCreated
    = (items, Some StopIteration, self')
    /\ map Item_str items = ["a"; "b"; "c"]%string
    /\ map Item_int items = [0; 1; 2].
Proof.
  destruct (Collection_iter_agrees_with_lookup
              (fun _ : Z => 3) (fun _ : Z => ["a"; "b"; "c"]%string)
              (Collection_init 7) 4)
    as (items & Hdrain & Hnames & Hindices & _);
    [reflexivity|cbn; lia|].
  exists items. split; [exact Hdrain|]. split; [exact Hnames|exact Hindices].
Defined.

(** X14: a collection reads the driver's name list at most once.  After
    the first lookup, [in] test, [get] or iteration step has filled the
    cache, every later operation answers from the cached list and leaves the
    collection unchanged, even if the driver would list other names by then
    (here [later_list]): the same key gives the same answer as the first
    time, and iteration still enumerates the cached names. *)
Theorem Collection_cache_read_once
    (get_session_num_in_list : Z -> Z)
    (get_session_list later_list : Z -> list string)
    (self : Collection) (index : key) (D : Type) (default : D)
    (g : generator) :
  let names := fst (_list_cache get_session_list self) in
  let self' := snd (_list_cache get_session_list self) in
  __list_cache self' = Some names
  /\ _list_cache later_list self' = (names, self')
  /\ Collection_getitem later_list self' index
     = (fst (Collection_getitem get_session_list self index), self')
  /\ Collection_contains later_list self' index
     = (fst (Collection_contains get_session_list self index), self')
  /\ Collection_get later_list self' index default
     = (fst (Collection_get get_session_list self index default), self')
  /\ Collection_iter_next get_session_num_in_list later_list self' g
     = Collection_iter_next get_session_num_in_list get_session_list self' g
  /\ snd (Collection_iter_next get_session_num_in_list later_list self' g)
     = self'.
Proof.
  intros names self'.
  destruct (list_cache_spec get_session_list self) as [Hhandle Hcache].
  fold self' in Hhandle, Hcache. fold names in Hcache.
  pose proof (list_cache_filled later_list self' names Hcache) as Hlater.
  pose proof (list_cache_filled get_session_list self' names Hcache)
    as Hfirst.
  split; [exact Hcache|]. split; [exact Hlater|].
  unfold Collection_getitem, Collection_contains, Collection_get,
    Collection_iter_next.
  rewrite Hlater, Hfirst, (list_cache_pair get_session_list self).
  fold names. fold self'. rewrite Hhandle.
  repeat split.
  - destruct index as [i|name|]; [| |reflexivity].
    + destruct (list_getitem names i) as [x|e]; reflexivity.
    + destruct (list_index names name) as [i|[]]; reflexivity.
  - destruct index as [i|name|]; [| |reflexivity].
    + destruct (0 <=? i); reflexivity.
    + reflexivity.
  - destruct index as [i|name|]; [| |reflexivity].
    + destruct (list_getitem names i) as [x|[]]; reflexivity.
    + destruct (list_index names name) as [i|[]]; reflexivity.
  - destruct g as [|item_names pos|]; [|reflexivity|reflexivity].
    unfold Collection_len. destruct (_ =? _); reflexivity.
Qed.

(** X15: [Collection.__eq__] is true exactly when the two collections have
    the same handle and the same cached name list, in the same order
    (reading each cache fills it); with different handles it is false and
    reads neither cache.  It gives the same answer in both directions, a
    collection equals itself, and two fresh collections on one handle are
    equal.  [__ne__] is its negation. *)
Theorem Collection_eq_handle_and_names
    (get_session_list : Z -> list string) (self other : Collection) :
  let equals := Collection_eq get_session_list in
  let names_of := fun c => fst (_list_cache get_session_list c) in
  let filled := fun c => snd (_list_cache get_session_list c) in
  (fst (fst (equals self other)) = true <->
   _handle self = _handle other /\ names_of self = names_of other)
  /\ (_handle self = _handle other ->
      equals self other
      = (names_eqb (names_of self) (names_of other),
         filled self, filled other))
  /\ (_handle self <> _handle other ->
      equals self other = (false, self, other))
  /\ fst (fst (equals self other)) = fst (fst (equals other self))
  /\ fst (fst (equals self self)) = true
  /\ equals (Collection_init (_handle self)) (Collection_init (_handle self))
     = (true, filled (Collection_init (_handle self)),
        filled (Collection_init (_handle self)))
  /\ Collection_ne get_session_list self other
     = (negb (fst (fst (equals self other))), snd (fst (equals self other)),
        snd (equals self other)).
Proof.
  intros equals names_of filled. subst equals names_of filled. cbv beta.
  assert (Hnames : forall a b : list string,
             names_eqb a b = true <-> a = b).
  { intros a b. unfold names_eqb.
    destruct (list_eq_dec string_dec a b); split; congruence. }
  assert (Hsym : forall a b : list string, names_eqb a b = names_eqb b a).
  { intros a b. unfold names_eqb.
    destruct (list_eq_dec string_dec a b), (list_eq_dec string_dec b a);
      congruence. }
  assert (Hsame : forall a b : Collection,
             _handle a = _handle b ->
             Collection_eq get_session_list a b
             = (names_eqb (fst (_list_cache get_session_list a))
                          (fst (_list_cache get_session_list b)),
                snd (_list_cache get_session_list a),
                snd (_list_cache get_session_list b))).
  { intros a b Hh. unfold Collection_eq.
    rewrite Hh, Z.eqb_refl.
    rewrite (list_cache_pair get_session_list a),
            (list_cache_pair get_session_list b).
    reflexivity. }
  assert (Hdiff : forall a b : Collection,
             _handle a <> _handle b ->
             Collection_eq get_session_list a b = (false, a, b)).
  { intros a b Hh. unfold Collection_eq.
    apply Z.eqb_neq in Hh. rewrite Hh. reflexivity. }
  split; [|split; [apply Hsame|split; [apply Hdiff|split; [|split;
    [|split]]]]].
  - destruct (Z.eq_dec (_handle self) (_handle other)) as [Hh|Hh].
    + rewrite (Hsame self other Hh). cbn [fst]. rewrite Hnames. tauto.
    + rewrite (Hdiff self other Hh). cbn [fst]. split; [discriminate|tauto].
  - destruct (Z.eq_dec (_handle self) (_handle other)) as [Hh|Hh].
    + rewrite (Hsame self other Hh), (Hsame other self (eq_sym Hh)).
      cbn [fst]. apply Hsym.
    + rewrite (Hdiff self other Hh), (Hdiff other self) by congruence.
      reflexivity.
  - rewrite (Hsame self self eq_refl). cbn [fst]. apply Hnames. reflexivity.
  - rewrite (Hsame _ _ eq_refl).
    replace (names_eqb _ _) with true; [reflexivity|].
    symmetry. apply Hnames. reflexivity.
  - unfold Collection_ne.
    destruct (Collection_eq get_session_list self other) as [[e a] b].
    reflexivity.
Qed.

(* ------------------------------------------------------------------ *)
(** ** Further properties of OutFrames *)

Section WriteCan.

Variable timeout_t : Type.
Variable serialize_frame : RawFrame -> result (list bytes).

(** A generator whose elements all compute is the list of their values. *)
Lemma chain_from_generator_Ok (raw_frames : list RawFrame) :
  chain_from_generator serialize_frame (map Ok raw_frames)
  = chain_from_iterable serialize_frame raw_frames.
Proof.
  induction raw_frames as [|frame rest IH]; [reflexivity|].
  cbn [map chain_from_generator chain_from_iterable bind]. rewrite IH.
  reflexivity.
Qed.

(** An element that raises makes the whole chain raise. *)
Lemma chain_from_generator_raises (raw_frames : list (result RawFrame)) :
  Exists (fun next => is_raise next = true) raw_frames ->
  is_raise (chain_from_generator serialize_frame raw_frames) = true.
Proof.
  induction 1 as [next rest Hnext|next rest _ IH];
    cbn [chain_from_generator].
  - destruct next; [discriminate Hnext|reflexivity].
  - destruct next as [frame|e]; cbn [bind]; [|reflexivity].
    destruct (serialize_frame frame); cbn [bind]; [|reflexivity].
    destruct (chain_from_generator serialize_frame rest);
      [discriminate IH|reflexivity].
Qed.

Lemma map_to_raw_Ok (can_frames : list CanFrame) (raws : list RawFrame) :
  Forall2 (fun f raw => CanFrame_to_raw f = Ok raw) can_frames raws ->
  map CanFrame_to_raw can_frames = map Ok raws.
Proof.
  induction 1 as [|f raw fs rs Hf _ IH]; [reflexivity|].
  cbn [map]. rewrite Hf, IH. reflexivity.
Qed.

End WriteCan.

(** X16: [OutFrames.write_can] converts each frame with [to_raw] and
    writes the raw frames as [write_raw] does: when every frame converts,
    the driver receives what [write_raw] on the converted frames hands it,
    one call with the concatenated serializations.  A write is all or
    nothing: either it returns and the driver has received exactly one call,
    or it raises and the driver has received nothing.  A frame whose
    identifier does not fit its mask, anywhere in the sequence, makes the
    whole write raise with nothing written, also for the frames before it;
    and writing no frame at all still makes one call, with empty data. *)
Theorem write_can_all_or_nothing
    (timeout_t : Type) (serialize_frame : RawFrame -> result (list bytes))
    (self : Collection) (can_frames : list CanFrame) (timeout : timeout_t)
    (d : list (write_call timeout_t)) :
  let written := write_can serialize_frame self can_frames timeout d in
  (forall raws : list RawFrame,
     Forall2 (fun f raw => CanFrame_to_raw f = Ok raw) can_frames raws ->
     written = write_raw serialize_frame self raws timeout d)
  /\ ((fst written = Ok tt
       /\ exists data,
            snd written = d ++ [mkWriteCall (_handle self) data timeout])
      \/ (exists e, fst written = Raise e /\ snd written = d))
  /\ (Exists (fun f =>
                Z.land (identifier (can_identifier f))
                       (id_mask (extended (can_identifier f)))
                <> identifier (can_identifier f)) can_frames ->
      exists e, written = (Raise e, d))
  /\ write_can serialize_frame self [] timeout d
     = (Ok tt, d ++ [mkWriteCall (_handle self) [] timeout]).
Proof.
  intros written. subst written. split; [|split; [|split]].
  - intros raws Hall. unfold write_can, write_raw_generator, write_raw.
    rewrite (map_to_raw_Ok can_frames raws Hall), chain_from_generator_Ok.
    reflexivity.
  - unfold write_can, write_raw_generator.
    destruct (chain_from_generator _ _) as [units|e]; cbn [fst snd].
    + left. split; [reflexivity|]. unfold write_bytes, nx_write_frame.
      eauto.
    + right. eauto.
  - intros Hbad. unfold write_can, write_raw_generator.
    assert (Hraise : is_raise (chain_from_generator serialize_frame
                                 (map CanFrame_to_raw can_frames)) = true).
    { apply chain_from_generator_raises. apply Exists_exists.
      apply Exists_exists in Hbad. destruct Hbad as (f & Hin & Hf).
      exists (CanFrame_to_raw f). split; [apply in_map; exact Hin|].
      unfold CanFrame_to_raw. rewrite CanIdentifier_int_cases.
      destruct (Z.eqb_spec (identifier (can_identifier f))
                  (Z.land (identifier (can_identifier f))
                          (id_mask (extended (can_identifier f)))));
        [congruence|reflexivity]. }
    destruct (chain_from_generator _ _) as [units|e];
      [discriminate Hraise|eauto].
  - reflexivity.
Qed.

(* ------------------------------------------------------------------ *)
(** ** Numeric range of identifiers, and item equality *)

Section RangeFacts.

(** Fitting a mask of [n] ones is being in [0, 2^n). *)
Lemma land_ones_fits_iff (a n : Z) :
  0 <= n -> (Z.land a (Z.ones n) = a <-> 0 <= a < 2 ^ n).
Proof.
  intros Hn. rewrite Z.land_ones by exact Hn.
  assert (Hpos : 0 < 2 ^ n) by (apply Z.pow_pos_nonneg; lia).
  split.
  - intros Hmod. rewrite <- Hmod. apply Z.mod_pos_bound. exact Hpos.
  - intros Ha. apply Z.mod_small. exact Ha.
Qed.

Lemma fits_iff_in_range (id : Z) (ext : bool) :
  Z.land id (id_mask ext) = id <-> 0 <= id <= id_mask ext.
Proof.
  destruct ext; cbn [id_mask].
  - change _EXTENDED_FRAME_ID_MASK with (Z.ones 29).
    rewrite land_ones_fits_iff by lia.
    change (Z.ones 29) with (2 ^ 29 - 1). lia.
  - change _FRAME_ID_MASK with (Z.ones 10).
    rewrite land_ones_fits_iff by lia.
    change (Z.ones 10) with (2 ^ 10 - 1). lia.
Qed.

(** Setting bit 29 of an identifier below [2^29] adds [2^29]. *)
Lemma flag_is_addition (id : Z) :
  0 <= id <= _EXTENDED_FRAME_ID_MASK ->
  Z.lor id NX_FRAME_ID_CAN_IS_EXTENDED = id + NX_FRAME_ID_CAN_IS_EXTENDED.
Proof.
  intros Hid.
  assert (Hfit : Z.land id _EXTENDED_FRAME_ID_MASK = id)
    by (apply (fits_iff_in_range id true); exact Hid).
  assert (Hdisjoint : Z.land id NX_FRAME_ID_CAN_IS_EXTENDED = 0).
  { rewrite <- Hfit, <- Z.land_assoc.
    replace (Z.land _EXTENDED_FRAME_ID_MASK NX_FRAME_ID_CAN_IS_EXTENDED)
      with 0 by reflexivity.
    apply Z.land_0_r. }
  rewrite (Z.add_nocarry_lxor _ _ Hdisjoint).
  symmetry. apply Z.lxor_lor. exact Hdisjoint.
Qed.

End RangeFacts.

(** X17: [int(CanIdentifier(id, extended))] returns exactly when
    [0 <= id <= 0x3FF] for a standard identifier and
    [0 <= id <= 0x1FFFFFFF] for an extended one (a negative identifier
    raises like an over-wide one); the raw value is then [id] for a standard
    identifier and [id + 0x20000000] for an extended one, so it lies in
    [0, 0x3FFFFFFF] and its bit 29 tells the two kinds apart. *)
Theorem CanIdentifier_int_range (c : CanIdentifier) :
  ((exists raw, CanIdentifier_int c = Ok raw) <->
   0 <= identifier c <= (if extended c then 0x1FFFFFFF else 0x3FF))
  /\ (forall raw,
        CanIdentifier_int c = Ok raw ->
        raw = identifier c + (if extended c then 0x20000000 else 0)
        /\ 0 <= raw <= 0x3FFFFFFF
        /\ Z.testbit raw 29 = extended c).
Proof.
  assert (Hok : (exists raw, CanIdentifier_int c = Ok raw) <->
                0 <= identifier c <= id_mask (extended c)).
  { rewrite <- fits_iff_in_range, CanIdentifier_int_cases. split.
    - intros [raw Hraw].
      destruct (Z.eqb_spec (identifier c)
                  (Z.land (identifier c) (id_mask (extended c))));
        [congruence|discriminate].
    - intros Hfit. rewrite Hfit, Z.eqb_refl. eauto. }
  split.
  - rewrite Hok. destruct (extended c); reflexivity.
  - intros raw Hraw.
    assert (Hrange : 0 <= identifier c <= id_mask (extended c))
      by (apply Hok; eauto).
    pose proof (CanIdentifier_int_inv c raw Hraw) as Hback.
    assert (Hbit : Z.testbit raw 29 = extended c).
    { rewrite <- Hback. unfold CanIdentifier_from_raw.
      rewrite truthy_flag_is_bit29.
      destruct (Z.testbit raw 29); reflexivity. }
    rewrite CanIdentifier_int_cases in Hraw.
    destruct (identifier c =? _); [|discriminate].
    injection Hraw as Hraw.
    destruct (extended c); cbn [id_mask] in Hrange.
    + rewrite flag_is_addition in Hraw by exact Hrange.
      unfold NX_FRAME_ID_CAN_IS_EXTENDED in Hraw.
      unfold _EXTENDED_FRAME_ID_MASK in Hrange.
      split; [lia|]. split; [lia|exact Hbit].
    + unfold _FRAME_ID_MASK in Hrange.
      split; [lia|]. split; [lia|exact Hbit].
Qed.

(** X18: a [CanFrame] constructed from a plain integer always has a
    standard identifier, timestamp 0 and no echo, so its [to_raw] returns
    exactly when [0 <= n <= 0x3FF]; the raw frame then carries [n] itself as
    identifier, flags 0 and the constructor's type and payload (the defaults
    being [CAN_DATA] and the empty payload).  An integer outside that range,
    a valid 29-bit value included, raises the undefined-frame-identifier
    error. *)
Theorem CanFrame_from_int_is_standard
    (n : Z) (type : option FrameType) (payload : option bytes) :
  let f := CanFrame_init (IdInt n) type payload in
  can_identifier f = mkCanIdentifier n false
  /\ CanFrame_to_raw f
     = if (0 <=? n) && (n <=? 0x3FF)
       then Ok (mkRawFrame 0 n
                  (match type with Some t => t | None => CAN_DATA end)
                  0 0
                  (match payload with Some p => p | None => [] end))
       else Raise (XnetError NX_ERR_UNDEFINED_FRAME_ID).
Proof.
  intros f. subst f. split; [reflexivity|].
  unfold CanFrame_to_raw.
  cbn [CanFrame_init can_identifier can_echo can_type can_timestamp
       can_payload].
  rewrite CanIdentifier_int_cases. cbn [identifier extended].
  pose proof (fits_iff_in_range n false) as Hfit. cbn [id_mask] in *.
  destruct (Z.eqb_spec n (Z.land n _FRAME_ID_MASK)) as [Heq|Hne].
  - assert (Hn : 0 <= n <= _FRAME_ID_MASK) by (apply Hfit; congruence).
    unfold _FRAME_ID_MASK in Hn.
    destruct (Z.leb_spec 0 n); [|lia].
    destruct (Z.leb_spec n 0x3FF); [|lia]. reflexivity.
  - assert (Hn : ~ 0 <= n <= _FRAME_ID_MASK)
      by (intros H; apply Hfit in H; congruence).
    unfold _FRAME_ID_MASK in Hn.
    destruct (Z.leb_spec 0 n); [|reflexivity].
    destruct (Z.leb_spec n 0x3FF); [lia|reflexivity].
Qed.

(** X19: [Item.__eq__] compares the handle and the index and ignores the
    name: it is reflexive, symmetric and transitive, items that differ only
    in their name are equal, equal items have the same [int()], and
    [__ne__] is its negation. *)
Theorem Item_eq_equivalence :
  (forall a b : Item,
     Item_eq a b = true <->
     item_handle a = item_handle b /\ Item_int a = Item_int b)
  /\ (forall a : Item, Item_eq a a = true)
  /\ (forall a b : Item, Item_eq a b = Item_eq b a)
  /\ (forall a b c : Item,
        Item_eq a b = true -> Item_eq b c = true -> Item_eq a c = true)
  /\ (forall (h i : Z) (name other_name : string),
        Item_eq (mkItem h i name) (mkItem h i other_name) = true)
  /\ (forall a b : Item, Item_ne a b = negb (Item_eq a b)).
Proof.
  assert (Hiff : forall a b : Item,
             Item_eq a b = true <->
             item_handle a = item_handle b /\ Item_int a = Item_int b).
  { intros a b. unfold Item_eq, Item_int.
    rewrite andb_true_iff, !Z.eqb_eq. tauto. }
  split; [exact Hiff|]. split; [|split; [|split; [|split]]].
  - intros a. apply Hiff. split; reflexivity.
  - intros a b. unfold Item_eq.
    rewrite (Z.eqb_sym (item_handle a)), (Z.eqb_sym (item_index a)).
    reflexivity.
  - intros a b c Hab Hbc. apply Hiff in Hab, Hbc. apply Hiff.
    destruct Hab, Hbc. split; congruence.
  - intros h i name other_name. apply Hiff. split; reflexivity.
  - reflexivity.
Qed.
